(** * fastreg: maximum-likelihood GLM estimation (fastreg/general.py)

    A shallow embedding of the batching component, the gradient-descent
    optimiser [maxlike], the link/loss registry and the model builders.

    Conventions of the embedding.
    - Real scalars (jax floats) are idealised as rationals [Q]; vectors are
      [list Q], matrices are lists of rows.
    - Python counts ([batch_size], [epochs], lengths) are [nat]; the one
      integer division that can fail ([data_size // batch_size]) and the two
      float divisions on Python numbers ([agg_loss/agg_batch],
      [batch_size/N]) raise [ZeroDivisionError] explicitly.
    - Exceptions and the standard output stream are threaded through a small
      writer/error monad [M].
    - The jax transforms ([jax.value_and_grad], [jax.grad], [jax.hessian]),
      [np.linalg.inv], [np.exp], [np.log] and [spec.gammaln] are library
      code: they are Section variables.  So are the two collaborators
      [design_matrices] (module [design]) and [param_table] (module
      [summary]), which [glm] only calls. *)

From Stdlib Require Import String Bool Arith ZArith QArith Qabs Qpower.
From Stdlib Require Import Lia Lqa List.
Import ListNotations.

Close Scope Q_scope.
Open Scope nat_scope.

Set Implicit Arguments.

(** ** Exceptions, results and the output monad *)

(** Python exceptions that derive from [Exception]. *)
Inductive exn : Type :=
| ZeroDivisionError
| ValueError
| LinAlgError
| OtherError (msg : string).

Inductive result (A : Type) : Type :=
| Ok (a : A)
| Raise (e : exn).

Arguments Ok {A} a.
Arguments Raise {A} e.

(** Lines written to the standard output stream. *)
Inductive line : Type :=
| EpochLine (ep : nat) (avg_loss : Q)   (* print(f'{ep:3}: loss = {avg_loss}') *)
| ErrorLine (e : exn)                   (* print(e) *)
| FallbackLine.                         (* print('Falling back to finite difference for hessian') *)

(** A computation returns a value or raises, and has printed some lines. *)
Definition M (A : Type) : Type := (result A * list line)%type.

Definition ret {A} (a : A) : M A := (Ok a, []).

Definition bind {A B} (m : M A) (f : A -> M B) : M B :=
  match m with
  | (Ok a, out) => let (r, out') := f a in (r, out ++ out')
  | (Raise e, out) => (Raise e, out)
  end.

Definition lift {A} (r : result A) : M A := (r, []).

Definition print (l : line) : M unit := (Ok tt, [l]).

(** [try: m except Exception as e: h e] *)
Definition try_except {A} (m : M A) (h : exn -> M A) : M A :=
  match m with
  | (Raise e, out) => let (r, out') := h e in (r, out ++ out')
  | (Ok a, out) => (Ok a, out)
  end.

Declare Scope py_scope.
Delimit Scope py_scope with py.
Notation "x <- m ;; k" := (bind m (fun x => k))
  (at level 61, m at next level, right associativity) : py_scope.
Notation "' p <- m ;; k" := (bind m (fun p => k))
  (at level 61, p pattern, m at next level, right associativity) : py_scope.
Notation "m ;;; k" := (bind m (fun _ => k))
  (at level 61, right associativity) : py_scope.
Open Scope py_scope.

(** [for b in l: s = body b s] *)
Fixpoint for_each {B S} (l : list B) (body : B -> S -> M S) (s : S) : M S :=
  match l with
  | [] => ret s
  | b :: l' => s' <- body b s ;; for_each l' body s'
  end.

(** [for i in range(n)] *)
Definition for_range {S} (n : nat) (body : nat -> S -> M S) (s : S) : M S :=
  for_each (seq 0 n) body s.

(** ** Scalars, vectors, matrices *)

Definition vec := list Q.
Definition matrix := list vec.

Definition Qnat (n : nat) : Q := inject_Z (Z.of_nat n).

(** True division of two Python integers. *)
Definition py_div_int (a b : nat) : result Q :=
  match b with
  | 0 => Raise ZeroDivisionError
  | _ => Ok (Qnat a / Qnat b)%Q
  end.

(** True division of a Python/jax float by a Python integer count. *)
Definition py_div_count (a : Q) (b : nat) : result Q :=
  match b with
  | 0 => Raise ZeroDivisionError
  | _ => Ok (a / Qnat b)%Q
  end.

Fixpoint map2 {A B C} (f : A -> B -> C) (l : list A) (l' : list B) : list C :=
  match l, l' with
  | a :: t, b :: t' => f a b :: map2 f t t'
  | _, _ => []
  end.

Definition vadd (u v : vec) : vec := map2 Qplus u v.
Definition vsub (u v : vec) : vec := map2 Qminus u v.
Definition vscale (c : Q) (v : vec) : vec := map (Qmult c) v.
Definition vzeros (k : nat) : vec := repeat 0%Q k.
Definition vsum (v : vec) : Q := fold_left Qplus v 0%Q.
Definition vdot (u v : vec) : Q := vsum (map2 Qmult u v).

Definition madd (a b : matrix) : matrix := map2 vadd a b.
Definition mscale (c : Q) (a : matrix) : matrix := map (vscale c) a.
Definition mdiv (a : matrix) (c : Q) : matrix := map (map (fun e => e / c)%Q) a.
Definition mzeros (r c : nat) : matrix := repeat (vzeros c) r.

(** [np.eye(K)] *)
Definition eye (k : nat) : matrix :=
  map (fun i => map (fun j => if Nat.eqb i j then 1%Q else 0%Q) (seq 0 k)) (seq 0 k).

(** ** Batching: [class DataLoader] *)

(** Python slice [l[lo:hi]] for [0 <= lo]. *)
Definition slice {A} (l : list A) (lo hi : nat) : list A :=
  firstn (hi - lo) (skipn lo l).

(** Covariates are a dense array or a scipy sparse matrix whose rows hold
    (column, value) entries; both carry their column count. *)
Inductive covariates : Type :=
| Dense (ncols : nat) (rows : list vec)
| Sparse (ncols : nat) (rows : list (list (nat * Q))).

Definition issparse (x : covariates) : bool :=
  match x with Sparse _ _ => true | Dense _ _ => false end.

(** [x.shape] *)
Definition shape (x : covariates) : nat * nat :=
  match x with
  | Dense k rows => (length rows, k)
  | Sparse k rows => (length rows, k)
  end.

(** [x[lo:hi, :]] *)
Definition slice_rows (x : covariates) (lo hi : nat) : covariates :=
  match x with
  | Dense k rows => Dense k (slice rows lo hi)
  | Sparse k rows => Sparse k (slice rows lo hi)
  end.

(** Entry of a sparse row at column [j]; duplicate entries add up. *)
Definition sparse_entry (r : list (nat * Q)) (j : nat) : Q :=
  vsum (map snd (filter (fun e => Nat.eqb (fst e) j) r)).

Definition densify (k : nat) (r : list (nat * Q)) : vec :=
  map (sparse_entry r) (seq 0 k).

(** [bx.toarray()]; only ever called on sparse storage. *)
Definition toarray (x : covariates) : covariates :=
  match x with
  | Sparse k rows => Dense k (map (densify k) rows)
  | Dense k rows => Dense k rows
  end.

(** The rows of [x] as dense vectors. *)
Definition dense_rows (x : covariates) : list vec :=
  match toarray x with
  | Dense _ rows => rows
  | Sparse _ _ => []
  end.

Definition batch : Type := (list Q * covariates)%type.

Module DataLoader.

Record t : Type := mk {
  y : list Q;
  x : covariates;
  batch_size : nat;
  data_size : nat;
  num_batches : nat;
  sparse : bool
}.

(** [__init__]: [data_size // batch_size] raises on a zero batch size. *)
Definition init (y0 : list Q) (x0 : covariates) (batch_size0 : nat) : result t :=
  match batch_size0 with
  | 0 => Raise ZeroDivisionError
  | _ => Ok {| y := y0;
               x := x0;
               batch_size := batch_size0;
               data_size := length y0;
               num_batches := length y0 / batch_size0;
               sparse := issparse x0 |}
  end.

(** The generator body: [n] iterations remain, [loc] is the local offset. *)
Fixpoint iter_loop (self : t) (n loc : nat) : list batch :=
  match n with
  | 0 => []
  | S n' =>
      let by_ := slice (y self) loc (loc + batch_size self) in
      let bx := slice_rows (x self) loc (loc + batch_size self) in
      let bx := if sparse self then toarray bx else bx in
      (by_, bx) :: iter_loop self n' (loc + batch_size self)
  end.

(** [__iter__]: the batches yielded by one full iteration. *)
Definition iter (self : t) : list batch :=
  iter_loop self (num_batches self) 0.

(** One [for ... in data] loop seen from the caller: the object is passed
    in and handed back; the generator frame ([loc], [i]) is local to the
    call and is discarded at exhaustion. *)
Definition iterate (self : t) : list batch * t := (iter self, self).

End DataLoader.

(** ** Constants and polygamma functions *)

Definition eps : Q := (1 # 10000000)%Q.
Definition clip_like : Q := 20%Q.

(** [trigamma], the source expression term by term. *)
Definition trigamma (x : Q) : Q :=
  (1/x + 1/(2*x^2) + 1/(6*x^3) - 1/(30*x^5) + 1/(42*x^7) - 1/(30*x^9)
   + 5/(66*x^11) - 691/(2730*x^13) + 7/(6*x^15))%Q.

(** A finite sum of rational-coefficient reciprocal powers: the term
    [(c, p)] stands for [c / x^p]. *)
Definition series : Type := list (Q * nat).

Definition term_value (x : Q) (t : Q * nat) : Q :=
  (fst t * / x ^ Z.of_nat (snd t))%Q.

Fixpoint series_value (s : series) (x : Q) : Q :=
  match s with
  | [] => 0%Q
  | t :: s' => (term_value x t + series_value s' x)%Q
  end.

(** The summands of [trigamma], in source order. *)
Definition trigamma_terms : series :=
  [ (1%Q, 1); ((1 # 2)%Q, 2); ((1 # 6)%Q, 3); ((-1 # 30)%Q, 5);
    ((1 # 42)%Q, 7); ((-1 # 30)%Q, 9); ((5 # 66)%Q, 11);
    ((-691 # 2730)%Q, 13); ((7 # 6)%Q, 15) ].

(** A series is in canonical form when no coefficient vanishes and no power
    occurs twice; only then is its number of terms determined by the
    function it denotes. *)
Definition canonical (s : series) : Prop :=
  Forall (fun t => ~ (fst t == 0)%Q) s /\ NoDup (map snd s).

(** ** Links and losses *)

Section Registry.

(** [np.exp], [np.log], [spec.gammaln] *)
Variables exp log gammaln_lib : Q -> Q.

(** [gammaln] forwards to the library implementation. *)
Definition gammaln (x : Q) : Q := gammaln_lib x.

Definition sigmoid (x : Q) : Q := (1 / (1 + exp (- x)))%Q.

Definition link_identity (x : Q) : Q := x.
Definition link_exponential (x : Q) : Q := exp x.
Definition link_logit (x : Q) : Q := (1 / (1 + exp (- x)))%Q.

Definition loss_binary (yh y : Q) : Q :=
  (y * log yh + (1 - y) * log (1 - yh))%Q.

Definition loss_poisson (yh y : Q) : Q :=
  (y * log yh - yh)%Q.

Definition loss_negative_binomial (r yh y : Q) : Q :=
  (gammaln (r + y) - gammaln r + r * log r + y * log yh
   - (r + y) * log (r + yh))%Q.

Definition loss_least_squares (yh y : Q) : Q :=
  (- (y - yh) ^ 2)%Q.

(** [np.clip(a, a_max=amax)]: an upper bound only. *)
Definition clip_max (a amax : Q) : Q :=
  if Qle_bool a amax then a else amax.

(** [(y == 0)] used as a number. *)
Definition is_zero (y : Q) : Q :=
  if Qeq_bool y 0 then 1%Q else 0%Q.

(** [par[i]] *)
Definition par_at (par : vec) (i : nat) : Q := nth i par 0%Q.

(** The [loss] closure of [zero_inflated_poisson], per observation. *)
Definition zip_loss (par : vec) (yh y : Q) : Q :=
  let pzero := sigmoid (par_at par 0) in
  let clike := clip_max (loss_poisson yh y) clip_like in
  let like := (pzero * is_zero y + (1 - pzero) * exp clike)%Q in
  log like.

(** The [loss] closure of [negative_binomial]. *)
Definition nb_loss (par : vec) (yh y : Q) : Q :=
  let r := exp (- par_at par 0) in
  loss_negative_binomial r yh y.

(** The [loss] closure of [zero_inflated_negative_binomial]. *)
Definition zinb_loss (par : vec) (yh y : Q) : Q :=
  let pzero := sigmoid (par_at par 0) in
  let r := exp (- par_at par 1) in
  let clike := clip_max (loss_negative_binomial r yh y) clip_like in
  let like := (pzero * is_zero y + (1 - pzero) * exp clike)%Q in
  log like.

(** The [loss] closure of [ordinary_least_squares]. *)
Definition ols_loss (par : vec) (yh y : Q) : Q :=
  let lsigma := par_at par 0 in
  let sigma2 := exp (2 * lsigma) in
  let like := (- lsigma + (1 # 2) * loss_least_squares yh y / sigma2)%Q in
  like.


End Registry.

(** ** Estimation: [maxlike] *)

(** An objective maps (parameters, batch labels, batch covariates) to a
    scalar mean negative log-likelihood. *)
Definition Model : Type := vec -> list Q -> covariates -> Q.

(** The name [step] is bound twice in [maxlike]: first to the scalar option,
    then, by the training loop, to the last update vector. *)
Inductive step_val : Type :=
| StepScalar (s : Q)
| StepVector (v : vec).

(** [step*np.eye(K)] with numpy broadcasting: a vector scales column [j] by
    its entry [j]. *)
Definition step_times_eye (step : step_val) (k : nat) : matrix :=
  match step with
  | StepScalar s => map (map (Qmult s)) (eye k)
  | StepVector v => map (fun row => map2 Qmult v row) (eye k)
  end.

(** [m/step] with numpy broadcasting: a vector divides column [j] by its
    entry [j]. *)
Definition div_step (m : matrix) (step : step_val) : matrix :=
  match step with
  | StepScalar s => map (map (fun e => e / s)%Q) m
  | StepVector v => map (fun row => map2 Qdiv row v) m
  end.

(** [m*c] for a scalar [c]. *)
Definition mtimes (m : matrix) (c : Q) : matrix :=
  map (map (fun e => e * c)%Q) m.

(** [np.vstack(rows)]: there must be at least one row to stack. *)
Definition vstack (rows : list vec) : result matrix :=
  match rows with
  | [] => Raise ValueError
  | _ :: _ => Ok rows
  end.

(** [rows[i] = v] *)
Fixpoint set_nth {A} (i : nat) (l : list A) (v : A) : list A :=
  match l, i with
  | [], _ => []
  | _ :: t, 0 => v :: t
  | a :: t, S i' => a :: set_nth i' t v
  end.

Definition output_is_beta (output : option string) : bool :=
  match output with
  | Some s => String.eqb s "beta"
  | None => false
  end.

Section Estimation.

(** [jax.value_and_grad], [jax.grad], [jax.hessian] (jit-compiled), and
    [np.linalg.inv]; each may raise. *)
Variable value_and_grad : Model -> vec -> list Q -> covariates -> result (Q * vec).
Variable grad : Model -> vec -> list Q -> covariates -> result vec.
Variable hessian : Model -> vec -> list Q -> covariates -> result matrix.
Variable linalg_inv : matrix -> result matrix.

Section Loops.

Variable fg_fun : vec -> list Q -> covariates -> result (Q * vec).
Variable g_fun : vec -> list Q -> covariates -> result vec.
Variable h_fun : vec -> list Q -> covariates -> result matrix.
Variable data : DataLoader.t.
Variable learning_rate : Q.

(** Body of the loop over batches (source lines 104-118). *)
Definition train_batch (b : batch) (st : vec * step_val * Q * nat)
  : M (vec * step_val * Q * nat) :=
  let '(params, _, agg_loss, agg_batch) := st in
  let '(y_bat, x_bat) := b in
  '(loss, diff) <- lift (fg_fun params y_bat x_bat) ;;
  let step := vscale (- learning_rate)%Q diff in
  let params := vadd params step in
  let gain := vdot step diff in
  let move := Qabs gain in
  ret (params, StepVector step, (agg_loss + loss)%Q, agg_batch + 1).

(** Body of the loop over epochs (source lines 99-122). *)
Definition train_epoch (ep : nat) (st : vec * step_val) : M (vec * step_val) :=
  let '(params, step) := st in
  '(params, step, agg_loss, agg_batch) <-
    for_each (DataLoader.iter data) train_batch (params, step, 0%Q, 0) ;;
  avg_loss <- lift (py_div_count agg_loss agg_batch) ;;
  print (EpochLine ep avg_loss) ;;;
  ret (params, step).

(** The training loop. *)
Definition train (epochs : nat) (params0 : vec) (step : Q) : M (vec * step_val) :=
  for_range epochs train_epoch (params0, StepScalar step).

(** Body of the [try] block (source lines 130-133). *)
Definition exact_hessian (params : vec) (batch_size N K : nat) : M matrix :=
  hess <- for_each (DataLoader.iter data)
            (fun b hess =>
               let '(y_bat, x_bat) := b in
               h <- lift (h_fun params y_bat x_bat) ;;
               ret (madd hess h))
            (mzeros K K) ;;
  scale <- lift (py_div_int batch_size N) ;;
  ret (mtimes hess scale).

(** Body of the innermost loop of the handler (source lines 142-144). *)
Definition fd_row (params : vec) (diff : matrix) (g0_batch : vec)
           (y_bat : list Q) (x_bat : covariates)
           (i : nat) (hess_rows : matrix) : M matrix :=
  let params1 := vadd params (nth i diff []) in
  g1 <- lift (g_fun params1 y_bat x_bat) ;;
  ret (set_nth i hess_rows (vadd (nth i hess_rows []) (vsub g1 g0_batch))).

(** Body of the [except] block after its two prints (source lines
    138-145); [step] is whatever the name is bound to at that point. *)
Definition fd_hessian (params : vec) (step : step_val) (batch_size N K : nat)
  : M matrix :=
  let hess_rows := repeat (vzeros K) K in
  let diff := step_times_eye step K in
  hess_rows <- for_each (DataLoader.iter data)
                 (fun b hess_rows =>
                    let '(y_bat, x_bat) := b in
                    g0_batch <- lift (g_fun params y_bat x_bat) ;;
                    for_range K (fd_row params diff g0_batch y_bat x_bat) hess_rows)
                 hess_rows ;;
  stacked <- lift (vstack hess_rows) ;;
  scale <- lift (py_div_int batch_size N) ;;
  ret (div_step (mtimes stacked scale) step).

(** The [try]/[except] statement (source lines 128-145). *)
Definition hessian_block (params : vec) (step : step_val) (batch_size N K : nat)
  : M matrix :=
  try_except (exact_hessian params batch_size N K)
    (fun e =>
       print (ErrorLine e) ;;;
       print FallbackLine ;;;
       fd_hessian params step batch_size N K).

End Loops.

Definition maxlike (y : list Q) (x : covariates) (model : Model) (params0 : vec)
           (batch_size epochs : nat) (learning_rate step : Q)
           (output : option string) : M (vec * option matrix) :=
  let fg_fun := value_and_grad model in
  let g_fun := grad model in
  let h_fun := hessian model in
  let N := length y in
  let K := length params0 in
  data <- lift (DataLoader.init y x batch_size) ;;
  '(params, step) <- train fg_fun data learning_rate epochs params0 step ;;
  if output_is_beta output then ret (params, None)
  else
    hess <- hessian_block g_fun h_fun data params step batch_size N K ;;
    inv_hess <- lift (linalg_inv hess) ;;
    let sigma := mdiv inv_hess (Qnat N) in
    ret (params, Some sigma).

End Estimation.

(** ** Model builders: [glm] and the six families *)

(** [par[-K:]]: the last [K] entries (all of [par] when [K = 0]). *)
Definition last_k (K : nat) (par : vec) : vec :=
  match K with
  | 0 => par
  | _ => skipn (length par - K) par
  end.

(** [np.mean] *)
Definition mean (v : vec) : Q := (vsum v / Qnat (length v))%Q.

(** Keyword arguments accepted by [glm] and forwarded to [maxlike]. *)
Record kwargs : Type := mk_kwargs {
  intercept : bool;
  drop : string;
  output : option string;
  table : bool;
  kw_batch_size : nat;
  kw_epochs : nat;
  kw_learning_rate : Q;
  kw_step : Q
}.

Definition default_kwargs : kwargs :=
  {| intercept := true;
     drop := "first"%string;
     output := None;
     table := true;
     kw_batch_size := 4092;
     kw_epochs := 3;
     kw_learning_rate := (1 # 2)%Q;
     kw_step := (1 # 10000)%Q |}.

(** With [extra=None] the loss takes [(yh, y)]; otherwise [(par, yh, y)]. *)
Definition loss_type (extra : option (list string)) : Type :=
  match extra with
  | None => Q -> Q -> Q
  | Some _ => vec -> Q -> Q -> Q
  end.

(** The model families, their builders and their extra parameters. *)
Inductive family : Type :=
| Logit | Poisson | ZeroInflatedPoisson | NegativeBinomial
| ZeroInflatedNegativeBinomial | OrdinaryLeastSquares.

Definition family_extra (f : family) : list string :=
  match f with
  | Logit => []
  | Poisson => []
  | ZeroInflatedPoisson => ["lpzero"%string]
  | NegativeBinomial => ["lalpha"%string]
  | ZeroInflatedNegativeBinomial => ["lpzero"%string; "lalpha"%string]
  | OrdinaryLeastSquares => ["lsigma"%string]
  end.

Section Builders.

Variable value_and_grad : Model -> vec -> list Q -> covariates -> result (Q * vec).
Variable grad : Model -> vec -> list Q -> covariates -> result vec.
Variable hessian : Model -> vec -> list Q -> covariates -> result matrix.
Variable linalg_inv : matrix -> result matrix.
Variables exp log gammaln_lib : Q -> Q.

(** The collaborators [design_matrices] and [param_table]; [Source]
    bundles the label, covariate, fixed-effect and data arguments. *)
Variable Source : Type.
Variable Table : Type.
Variable design_matrices :
  Source -> bool -> string -> result (list Q * covariates * list string).
Variable param_table : vec -> option matrix -> list string -> Table.

Inductive glm_result : Type :=
| RetBeta (beta : vec)
| RetTable (tbl : Table)
| RetPair (beta : vec) (sigma : option matrix).

(** The [model] closure of [glm] (source lines 171-175). *)
Definition glm_model (K : nat) (link : Q -> Q) (loss1 : vec -> Q -> Q -> Q) : Model :=
  fun par y x =>
    let linear := map (fun row => vdot row (last_k K par)) (dense_rows x) in
    let pred := map link linear in
    let like := map2 (loss1 par) pred y in
    (- mean like)%Q.

Definition glm (src : Source) (extra : option (list string)) (link : Q -> Q)
           (loss : loss_type extra) (kw : kwargs) : M glm_result :=
  '(y_vec, x_mat, x_names) <-
    lift (design_matrices src (intercept kw) (drop kw)) ;;
  let '(N, K) := shape x_mat in
  let '(loss1, extra) :=
    match extra as e return loss_type e -> (vec -> Q -> Q -> Q) * list string with
    | None => fun loss => (fun p yh y => loss yh y, [])
    | Some names => fun loss => (loss, names)
    end loss in
  let P := length extra in
  let x_names := extra ++ x_names in
  let model := glm_model K link loss1 in
  let params := vzeros (P + K) in
  '(beta, sigma) <-
    maxlike value_and_grad grad hessian linalg_inv y_vec x_mat model params
      (kw_batch_size kw) (kw_epochs kw) (kw_learning_rate kw) (kw_step kw)
      (output kw) ;;
  if output_is_beta (output kw) then ret (RetBeta beta)
  else if table kw then ret (RetTable (param_table beta sigma x_names))
  else ret (RetPair beta sigma).

Definition logit (src : Source) (kw : kwargs) : M glm_result :=
  let link := link_logit exp in
  let like := loss_binary log in
  glm src None link like kw.

Definition poisson (src : Source) (kw : kwargs) : M glm_result :=
  let link := link_exponential exp in
  let like := loss_poisson log in
  glm src None link like kw.

Definition zero_inflated_poisson (src : Source) (kw : kwargs) : M glm_result :=
  let link := link_exponential exp in
  let extra := ["lpzero"%string] in
  glm src (Some extra) link (zip_loss exp log) kw.

Definition negative_binomial (src : Source) (kw : kwargs) : M glm_result :=
  let link := link_exponential exp in
  let extra := ["lalpha"%string] in
  glm src (Some extra) link (nb_loss exp log gammaln_lib) kw.

Definition zero_inflated_negative_binomial (src : Source) (kw : kwargs)
  : M glm_result :=
  let link := link_exponential exp in
  let extra := ["lpzero"%string; "lalpha"%string] in
  glm src (Some extra) link (zinb_loss exp log gammaln_lib) kw.

Definition ordinary_least_squares (src : Source) (kw : kwargs) : M glm_result :=
  let link := link_identity in
  let extra := ["lsigma"%string] in
  glm src (Some extra) link (ols_loss exp) kw.

(** The six family builders, by name. *)
Definition build (f : family) : Source -> kwargs -> M glm_result :=
  match f with
  | Logit => logit
  | Poisson => poisson
  | ZeroInflatedPoisson => zero_inflated_poisson
  | NegativeBinomial => negative_binomial
  | ZeroInflatedNegativeBinomial => zero_inflated_negative_binomial
  | OrdinaryLeastSquares => ordinary_least_squares
  end.

End Builders.

(** ** Specification-side definitions *)

(** Batches in record order: batch [k] holds records [k*B .. k*B+B-1]. *)
Definition ordered_batches (y : list Q) (x : covariates) (B : nat) : list batch :=
  map (fun k => (slice y (k * B) (k * B + B),
                 Dense (snd (shape x)) (slice (dense_rows x) (k * B) (k * B + B))))
      (seq 0 (length y / B)).

(** Plain gradient descent: [params - learning_rate * gradient]. *)
Definition gd_update (lr : Q) (gradv : vec -> list Q -> covariates -> vec)
           (p : vec) (b : batch) : vec :=
  vsub p (vscale lr (gradv p (fst b) (snd b))).

(** One full pass over the batch sequence, in order. *)
Definition gd_pass (lr : Q) (gradv : vec -> list Q -> covariates -> vec)
           (batches : list batch) (p : vec) : vec :=
  fold_left (gd_update lr gradv) batches p.

(** [epochs] full passes, one after the other. *)
Fixpoint gd_epochs (lr : Q) (gradv : vec -> list Q -> covariates -> vec)
         (batches : list batch) (epochs : nat) (p : vec) : vec :=
  match epochs with
  | 0 => p
  | S n => gd_epochs lr gradv batches n (gd_pass lr gradv batches p)
  end.

(** The aggregate Hessian in the words of the specification: the sum over
    all batches of the per-batch Hessian, scaled by [batch_size/N]. *)
Definition aggregate_hessian (H : batch -> matrix) (batches : list batch)
           (B N K : nat) : matrix :=
  mtimes (fold_left (fun acc b => madd acc (H b)) batches (mzeros K K))
         (Qnat B / Qnat N)%Q.

(** The finite-difference Hessian in the words of the specification: row
    [i] perturbs the parameters by the scalar [step] along axis [i], sums
    the gradient differences over every batch, scales by [batch_size/N] and
    divides by [step]. *)
Definition unit_vector (K i : nat) : vec :=
  map (fun j => if Nat.eqb i j then 1%Q else 0%Q) (seq 0 K).

Definition fd_hessian_spec (g : vec -> list Q -> covariates -> vec)
           (batches : list batch) (params : vec) (step : Q) (B N K : nat)
  : matrix :=
  map (fun i =>
         let params1 := vadd params (vscale step (unit_vector K i)) in
         let acc :=
           fold_left
             (fun acc b =>
                vadd acc (vsub (g params1 (fst b) (snd b))
                               (g params (fst b) (snd b))))
             batches (vzeros K) in
         map (fun e => e * (Qnat B / Qnat N) / step)%Q acc)
      (seq 0 K).

(** A value-and-gradient function that never raises. *)
Definition total_fg (lossv : vec -> list Q -> covariates -> Q)
           (gradv : vec -> list Q -> covariates -> vec)
  : vec -> list Q -> covariates -> result (Q * vec) :=
  fun p y_bat x_bat => Ok (lossv p y_bat x_bat, gradv p y_bat x_bat).

Definition is_epoch_line (ep : nat) (l : line) : Prop :=
  exists avg_loss, l = EpochLine ep avg_loss.

Definition epoch_line (l : line) : Prop :=
  exists ep avg_loss, l = EpochLine ep avg_loss.

Definition is_vector (st : step_val) : Prop :=
  exists v, st = StepVector v.

(** ** Series as polynomials in [1/x] *)

Fixpoint qpow (t : Q) (n : nat) : Q :=
  match n with
  | 0 => 1%Q
  | S n' => (t * qpow t n')%Q
  end.

(** The series read as a polynomial in [t = 1/x]. *)
Fixpoint poly_value (s : series) (t : Q) : Q :=
  match s with
  | [] => 0%Q
  | (c, p) :: s' => (c * qpow t p + poly_value s' t)%Q
  end.

(** Total coefficient of the power [q] in a series. *)
Fixpoint coef (s : series) (q : nat) : Q :=
  match s with
  | [] => 0%Q
  | (c, p) :: s' => ((if Nat.eqb p q then c else 0) + coef s' q)%Q
  end.

(** [sum_{i = k}^{k+n-1} f i * t^i] *)
Fixpoint esum (f : nat -> Q) (t : Q) (k n : nat) : Q :=
  match n with
  | 0 => 0%Q
  | S n' => (f k * qpow t k + esum f t (S k) n')%Q
  end.

(** A strict bound on the powers of a series. *)
Fixpoint degree_bound (s : series) : nat :=
  match s with
  | [] => 0
  | (_, p) :: s' => Nat.max (S p) (degree_bound s')
  end.

(** [mapi_from F k l] applies [F (k+i)] to the entry [i] of [l]. *)
Fixpoint mapi_from {A} (F : nat -> A -> A) (k : nat) (l : list A) : list A :=
  match l with
  | [] => []
  | a :: t => F k a :: mapi_from F (S k) t
  end.

(** A gradient function that never raises. *)
Definition total_g (gv : vec -> list Q -> covariates -> vec)
  : vec -> list Q -> covariates -> result vec :=
  fun p y_bat x_bat => Ok (gv p y_bat x_bat).

(** The contribution of batch [b] to row [i] of the finite-difference
    Hessian, for a scalar perturbation [s]. *)
Definition fd_increment (gv : vec -> list Q -> covariates -> vec) (p : vec)
           (s : Q) (K : nat) (b : batch) (i : nat) (acc : vec) : vec :=
  vadd acc (vsub (gv (vadd p (vscale s (unit_vector K i))) (fst b) (snd b))
                 (gv p (fst b) (snd b))).

(** The gradient part of a value-and-gradient function. *)
Definition grad_of (fg : vec -> list Q -> covariates -> result (Q * vec))
  : vec -> list Q -> covariates -> vec :=
  fun p y_bat x_bat =>
    match fg p y_bat x_bat with
    | Ok (_, diff) => diff
    | Raise _ => []
    end.

(** ** Sample inputs *)

Definition sample_labels : list Q := [1%Q; 2%Q; 3%Q; 4%Q; 5%Q].
Definition sample_dense : covariates :=
  Dense 1 [[1%Q]; [0%Q]; [2%Q]; [0%Q]; [3%Q]].
Definition sample_sparse : covariates :=
  Sparse 1 [[(0, 1%Q)]; []; [(0, 2%Q)]; []; [(0, 3%Q)]].

(** A data-independent objective [sum_i (p_i^3/3 - p_i)] with its gradient
    [p_i^2 - 1] and its Hessian [diag (2 p_i)], standing in for the jax
    transforms on sample runs. *)
Definition sample_model : Model :=
  fun p _ _ => vsum (map (fun q => q * q * q / 3 - q)%Q p).

Definition sample_gradient : vec -> list Q -> covariates -> vec :=
  fun p _ _ => map (fun q => q * q - 1)%Q p.

Definition diag (v : vec) : matrix :=
  map (fun i => map (fun j => if Nat.eqb i j then nth i v 0%Q else 0%Q)
                    (seq 0 (length v)))
      (seq 0 (length v)).

Definition sample_value_and_grad (m : Model)
  : vec -> list Q -> covariates -> result (Q * vec) :=
  total_fg m sample_gradient.

Definition sample_grad (m : Model) (p : vec) (yb : list Q) (xb : covariates)
  : result vec :=
  Ok (sample_gradient p yb xb).

Definition sample_hessian (m : Model) (p : vec) (yb : list Q) (xb : covariates)
  : result matrix :=
  Ok (diag (map (fun q => 2 * q)%Q p)).

(** A Hessian transform that cannot differentiate twice. *)
Definition failing_hessian (m : Model) (p : vec) (yb : list Q) (xb : covariates)
  : result matrix :=
  Raise (OtherError "second derivative unsupported").

(** Matrix inversion, for one-by-one matrices. *)
Definition sample_inv (m : matrix) : result matrix :=
  match m with
  | [[a]] => if Qeq_bool a 0 then Raise LinAlgError else Ok [[(/ a)%Q]]
  | _ => Raise LinAlgError
  end.

(** A design of five records and one column. *)
Definition sample_design (src : unit) (intercept : bool) (drop : string)
  : result (list Q * covariates * list string) :=
  Ok (sample_labels, sample_dense, ["x1"%string]).

Definition sample_table (beta : vec) (sigma : option matrix) (names : list string)
  : unit := tt.

Definition beta_kwargs : kwargs :=
  {| intercept := true;
     drop := "first"%string;
     output := Some "beta"%string;
     table := true;
     kw_batch_size := 2;
     kw_epochs := 3;
     kw_learning_rate := (1 # 2)%Q;
     kw_step := (1 # 10000)%Q |}.

(** A dataset of one record. *)
Definition one_label : list Q := [1%Q].
Definition one_row : covariates := Dense 1 [[1%Q]].

(** ** Closed forms used by the further properties *)

(** The finite-difference Hessian as the handler computes it when [step] is
    bound to a vector [v]: row [i] perturbs the parameters by [v] times the
    unit vector [i], entry by entry, and entry [j] of every row is divided
    by [v[j]]. *)
Definition fd_hessian_rebound (g : vec -> list Q -> covariates -> vec)
           (batches : list batch) (params : vec) (v : vec) (B N K : nat)
  : matrix :=
  map (fun i =>
         let params1 := vadd params (map2 Qmult v (unit_vector K i)) in
         let acc :=
           fold_left
             (fun acc b =>
                vadd acc (vsub (g params1 (fst b) (snd b))
                               (g params (fst b) (snd b))))
             batches (vzeros K) in
         map2 Qdiv (map (fun e => e * (Qnat B / Qnat N))%Q acc) v)
      (seq 0 K).

(** The loss total of one pass: each batch loss is taken at the parameters
    current when the batch is visited. *)
Fixpoint pass_loss (lr : Q) (lossv : vec -> list Q -> covariates -> Q)
         (gradv : vec -> list Q -> covariates -> vec)
         (batches : list batch) (p : vec) (acc : Q) : Q :=
  match batches with
  | [] => acc
  | b :: l =>
      pass_loss lr lossv gradv l (gd_update lr gradv p b)
                (acc + lossv p (fst b) (snd b))%Q
  end.

(** The lines printed by [epochs] passes starting at epoch number [start]. *)
Fixpoint train_lines (lr : Q) (lossv : vec -> list Q -> covariates -> Q)
         (gradv : vec -> list Q -> covariates -> vec)
         (batches : list batch) (start epochs : nat) (p : vec) : list line :=
  match epochs with
  | 0 => []
  | S n =>
      EpochLine start
                (pass_loss lr lossv gradv batches p 0 / Qnat (length batches))%Q
      :: train_lines lr lossv gradv batches (S start) n
                     (gd_pass lr gradv batches p)
  end.

(** The argument of [log] in the zero-inflated losses. *)
Definition zi_likelihood (exp : Q -> Q) (pzero c y : Q) : Q :=
  (pzero * is_zero y + (1 - pzero) * exp c)%Q.

(** A rational stand-in for [np.exp] on sample runs. *)
Definition sample_exp (x : Q) : Q :=
  if Qle_bool 0 x then (1 + x)%Q else (/ (1 - x))%Q.

Definition sample_log (x : Q) : Q := (x - 1)%Q.

(** A design whose construction fails. *)
Definition failing_design (src : unit) (intercept : bool) (drop : string)
  : result (list Q * covariates * list string) :=
  Raise (OtherError "no such column").

(** A value-and-gradient routine that raises once the first parameter
    reaches one half. *)
Definition fragile_fg (p : vec) (yb : list Q) (xb : covariates)
  : result (Q * vec) :=
  if Qle_bool (1 # 2) (par_at p 0)
  then Raise (OtherError "loss is not finite")
  else Ok (sample_model p yb xb, sample_gradient p yb xb).

(** ** Entries of matrices *)

(** [m[i, j]] *)
Definition entry (m : matrix) (i j : nat) : Q := nth j (nth i m []) 0%Q.

(** A [K] by [K] matrix. *)
Definition is_square (K : nat) (m : matrix) : Prop :=
  length m = K /\ Forall (fun row => length row = K) m.

(** The sum over the batches of the entry [(i, j)] of the per-batch
    Hessians. *)
Definition entry_sum (H : batch -> matrix) (batches : list batch) (i j : nat) : Q :=
  fold_left (fun acc b => (acc + entry (H b) i j)%Q) batches 0%Q.

(** Matrix inversion for one-by-one and two-by-two matrices. *)
Definition sample_inv2 (m : matrix) : result matrix :=
  match m with
  | [[a]] => if Qeq_bool a 0 then Raise LinAlgError else Ok [[(/ a)%Q]]
  | [[a; b]; [c; d]] =>
      let det := (a * d - b * c)%Q in
      if Qeq_bool det 0 then Raise LinAlgError
      else Ok [[(d / det)%Q; (- b / det)%Q]; [(- c / det)%Q; (a / det)%Q]]
  | _ => Raise LinAlgError
  end.

(** The link and the per-record loss that each family hands to [glm]. *)
Definition family_link (exp : Q -> Q) (f : family) : Q -> Q :=
  match f with
  | Logit => link_logit exp
  | OrdinaryLeastSquares => link_identity
  | _ => link_exponential exp
  end.

Definition family_loss1 (exp log gammaln_lib : Q -> Q) (f : family)
  : vec -> Q -> Q -> Q :=
  match f with
  | Logit => fun _ yh y => loss_binary log yh y
  | Poisson => fun _ yh y => loss_poisson log yh y
  | ZeroInflatedPoisson => zip_loss exp log
  | NegativeBinomial => nb_loss exp log gammaln_lib
  | ZeroInflatedNegativeBinomial => zinb_loss exp log gammaln_lib
  | OrdinaryLeastSquares => ols_loss exp
  end.

(** The loss of three arguments that [glm] derives from its [loss]. *)
Definition loss1_of (extra : option (list string))
  : loss_type extra -> vec -> Q -> Q -> Q :=
  match extra as e return loss_type e -> vec -> Q -> Q -> Q with
  | None => fun loss _ yh y => loss yh y
  | Some _ => fun loss => loss
  end.

(** * Properties *)

Unset Implicit Arguments.

(** ** Lists and slices *)

Lemma firstn_plus {A} (a b : nat) (l : list A) :
  firstn (a + b) l = firstn a l ++ firstn b (skipn a l).
Proof.
  revert l; induction a as [|a IH]; intros l; simpl.
  - reflexivity.
  - destruct l as [|h t]; simpl.
    + now rewrite firstn_nil.
    + now rewrite IH.
Qed.

Lemma skipn_plus {A} (a b : nat) (l : list A) :
  skipn (a + b) l = skipn b (skipn a l).
Proof.
  revert l; induction a as [|a IH]; intros l; simpl.
  - reflexivity.
  - destruct l as [|h t]; simpl.
    + now rewrite skipn_nil.
    + apply IH.
Qed.

Lemma slice_length {A} (l : list A) (lo hi : nat) :
  hi <= length l -> length (slice l lo hi) = hi - lo.
Proof.
  intros H. unfold slice. rewrite length_firstn, length_skipn. lia.
Qed.

Lemma slice_map {A B} (f : A -> B) (l : list A) (lo hi : nat) :
  slice (map f l) lo hi = map f (slice l lo hi).
Proof.
  unfold slice. now rewrite skipn_map, firstn_map.
Qed.

Lemma slice_step {A} (l : list A) (loc B : nat) :
  slice l loc (loc + B) = firstn B (skipn loc l).
Proof.
  unfold slice. f_equal. lia.
Qed.

(** ** The batching component *)

Lemma yielded_covariates (x : covariates) (lo hi : nat) :
  (if issparse x then toarray (slice_rows x lo hi) else slice_rows x lo hi)
  = Dense (snd (shape x)) (slice (dense_rows x) lo hi).
Proof.
  destruct x as [k rows|k rows]; simpl; unfold dense_rows; simpl.
  - reflexivity.
  - now rewrite slice_map.
Qed.

Lemma init_ok (y : list Q) (x : covariates) (B : nat) :
  0 < B ->
  DataLoader.init y x B =
  Ok (DataLoader.mk y x B (length y) (length y / B) (issparse x)).
Proof.
  intros H. destruct B; [lia | reflexivity].
Qed.

Lemma init_inv (y : list Q) (x : covariates) (B : nat) (d : DataLoader.t) :
  DataLoader.init y x B = Ok d ->
  0 < B /\ d = DataLoader.mk y x B (length y) (length y / B) (issparse x).
Proof.
  destruct B; simpl; intros H; inversion H. split; [lia | reflexivity].
Qed.

Lemma iter_loop_length (d : DataLoader.t) (n loc : nat) :
  length (DataLoader.iter_loop d n loc) = n.
Proof.
  revert loc; induction n as [|n IH]; intros loc; simpl; [reflexivity|].
  now rewrite IH.
Qed.

Lemma iter_loop_unfold (y : list Q) (x : covariates) (B n j : nat) :
  DataLoader.iter_loop
    (DataLoader.mk y x B (length y) (length y / B) (issparse x)) n (j * B)
  = map (fun k => (slice y (k * B) (k * B + B),
                   Dense (snd (shape x))
                         (slice (dense_rows x) (k * B) (k * B + B))))
        (seq j n).
Proof.
  revert j; induction n as [|n IH]; intros j; simpl; [reflexivity|].
  rewrite yielded_covariates. f_equal.
  replace (j * B + B) with (S j * B) by (simpl; lia).
  apply IH.
Qed.

Lemma iter_ordered (y : list Q) (x : covariates) (B : nat) (d : DataLoader.t) :
  DataLoader.init y x B = Ok d ->
  DataLoader.iter d = ordered_batches y x B.
Proof.
  intros H. apply init_inv in H. destruct H as [_ ->].
  unfold DataLoader.iter, ordered_batches; simpl.
  apply (iter_loop_unfold y x B (length y / B) 0).
Qed.

(** Concatenating [n] consecutive slices of width [B] from offset [j*B]. *)
Lemma concat_slices {A} (l : list A) (B n j : nat) :
  concat (map (fun k => slice l (k * B) (k * B + B)) (seq j n))
  = firstn (n * B) (skipn (j * B) l).
Proof.
  revert j; induction n as [|n IH]; intros j; simpl; [reflexivity|].
  rewrite IH, firstn_plus, slice_step. f_equal. f_equal.
  rewrite <- skipn_plus. f_equal. lia.
Qed.

Lemma ordered_labels (y : list Q) (x : covariates) (B : nat) :
  concat (map fst (ordered_batches y x B))
  = firstn (length y / B * B) y.
Proof.
  unfold ordered_batches. rewrite map_map. simpl.
  apply (concat_slices y B (length y / B) 0).
Qed.

Lemma ordered_rows (y : list Q) (x : covariates) (B : nat) :
  concat (map (fun b => dense_rows (snd b)) (ordered_batches y x B))
  = firstn (length y / B * B) (dense_rows x).
Proof.
  unfold ordered_batches. rewrite map_map. simpl.
  apply (concat_slices (dense_rows x) B (length y / B) 0).
Qed.

Lemma full_batches (N B : nat) : 0 < B -> N / B * B = N - N mod B.
Proof.
  intros H. pose proof (Nat.div_mod_eq N B). lia.
Qed.

(** C2. For labels of length [N], covariates of [N] rows and a batch size
    [B >= 1], one iteration of the [DataLoader] yields exactly [N / B]
    batches; batch [k] starts at offset [k*B] and holds [B] records; the
    yielded records are the first [N - N mod B] ones in order, so that the
    trailing [N mod B] records are in no batch; and when [B] divides [N] the
    concatenation of the batches is the original labels and covariates. *)
Theorem DataLoader_yields_full_batches (y : list Q) (x : covariates) (B : nat) :
  0 < B ->
  length (dense_rows x) = length y ->
  exists d,
    DataLoader.init y x B = Ok d /\
    let N := length y in
    let bs := DataLoader.iter d in
    let labels := concat (map fst bs) in
    let rows := concat (map (fun b => dense_rows (snd b)) bs) in
    length bs = N / B /\
    (forall k, k < N / B ->
       nth_error bs k =
         Some (slice y (k * B) (k * B + B),
               Dense (snd (shape x)) (slice (dense_rows x) (k * B) (k * B + B)))
       /\ length (slice y (k * B) (k * B + B)) = B
       /\ length (slice (dense_rows x) (k * B) (k * B + B)) = B) /\
    (y = labels ++ skipn (N - N mod B) y
     /\ dense_rows x = rows ++ skipn (N - N mod B) (dense_rows x)
     /\ length (skipn (N - N mod B) y) = N mod B
     /\ length (skipn (N - N mod B) (dense_rows x)) = N mod B) /\
    (N mod B = 0 -> labels = y /\ rows = dense_rows x).
Proof.
  intros HB Hx.
  eexists. split; [apply init_ok, HB|].
  assert (Hd : DataLoader.init y x B =
               Ok (DataLoader.mk y x B (length y) (length y / B) (issparse x)))
    by (apply init_ok, HB).
  cbv zeta. rewrite (iter_ordered _ _ _ _ Hd).
  rewrite ordered_labels, ordered_rows, (full_batches (length y) B HB).
  pose proof (Nat.mod_upper_bound (length y) B ltac:(lia)) as Hm.
  pose proof (Nat.div_mod_eq (length y) B) as Hdm.
  split; [|split; [|split]].
  - unfold ordered_batches. now rewrite length_map, length_seq.
  - intros k Hk.
    assert (Hle : k * B + B <= length y) by nia.
    split; [|split].
    + unfold ordered_batches.
      rewrite nth_error_map, nth_error_seq.
      apply Nat.ltb_lt in Hk. now rewrite Hk.
    + rewrite slice_length; lia.
    + rewrite slice_length; lia.
  - repeat split.
    + now rewrite firstn_skipn.
    + now rewrite firstn_skipn.
    + rewrite length_skipn. lia.
    + rewrite length_skipn. lia.
  - intros H0. rewrite H0, Nat.sub_0_r.
    split; [apply firstn_all | rewrite <- Hx; apply firstn_all].
Qed.

Lemma DataLoader_yields_full_batches_witness :
  exists d,
    DataLoader.init sample_labels sample_sparse 2 = Ok d /\
    length (DataLoader.iter d) = 2 /\
    sample_labels = concat (map fst (DataLoader.iter d)) ++ [5%Q].
Proof.
  destruct (DataLoader_yields_full_batches sample_labels sample_sparse 2)
    as [d [Hd [Hn [_ [[Hy _] _]]]]].
  - lia.
  - reflexivity.
  - exists d. split; [exact Hd|]. split; [exact Hn | exact Hy].
Defined.

(** C7. Iterating the same [DataLoader] instance twice from scratch yields
    the same sequence of (label, covariate) batches both times: each pass
    yields the batches in record order, and the instance is unchanged. *)
Theorem DataLoader_restartable (y : list Q) (x : covariates) (B : nat)
        (d : DataLoader.t) :
  DataLoader.init y x B = Ok d ->
  let '(first_pass, d1) := DataLoader.iterate d in
  let '(second_pass, d2) := DataLoader.iterate d1 in
  first_pass = second_pass /\
  first_pass = ordered_batches y x B /\
  second_pass = ordered_batches y x B /\
  d2 = d.
Proof.
  intros Hd. unfold DataLoader.iterate.
  rewrite (iter_ordered _ _ _ _ Hd). repeat split.
Qed.

Lemma DataLoader_restartable_witness :
  exists d,
    DataLoader.init sample_labels sample_dense 2 = Ok d /\
    fst (DataLoader.iterate d) = fst (DataLoader.iterate (snd (DataLoader.iterate d))) /\
    fst (DataLoader.iterate d) =
      [ ([1%Q; 2%Q], Dense 1 [[1%Q]; [0%Q]]);
        ([3%Q; 4%Q], Dense 1 [[2%Q]; [0%Q]]) ].
Proof.
  eexists. split; [reflexivity|].
  pose proof (@DataLoader_restartable sample_labels sample_dense 2 _ eq_refl) as H.
  simpl in H. destruct H as [H12 [H1 _]].
  split; [exact H12 | exact H1].
Defined.

(** ** The output monad *)

Lemma bind_ret {A B} (a : A) (f : A -> M B) : bind (ret a) f = f a.
Proof.
  unfold bind, ret. destruct (f a) as [r out]. reflexivity.
Qed.

Lemma bind_lift_ok {A B} (a : A) (f : A -> M B) : bind (lift (Ok a)) f = f a.
Proof.
  apply bind_ret.
Qed.

Lemma bind_lift_raise {A B} (e : exn) (f : A -> M B) :
  bind (lift (Raise e)) f = (Raise e, []).
Proof.
  reflexivity.
Qed.

Lemma bind_ok {A B} (a : A) (out : list line) (f : A -> M B) :
  bind (Ok a, out) f = (fst (f a), out ++ snd (f a)).
Proof.
  unfold bind. destruct (f a) as [r out']. reflexivity.
Qed.

Lemma bind_raise {A B} (e : exn) (out : list line) (f : A -> M B) :
  bind (Raise e, out) f = (Raise e, out).
Proof.
  reflexivity.
Qed.

Lemma bind_ok_inv {A B} (m : M A) (f : A -> M B) (b : B) (out : list line) :
  bind m f = (Ok b, out) ->
  exists a o1 o2, m = (Ok a, o1) /\ f a = (Ok b, o2) /\ out = o1 ++ o2.
Proof.
  destruct m as [[a|e] o1]; [|discriminate].
  rewrite bind_ok. destruct (f a) as [r o2] eqn:E. cbn [fst snd].
  intros H. inversion H; subst. exists a, o1, o2. repeat split. exact E.
Qed.

Lemma for_each_pure {B S} (f : S -> B -> S) (body : B -> S -> M S) (l : list B) :
  (forall b s, body b s = ret (f s b)) ->
  forall s, for_each l body s = ret (fold_left f l s).
Proof.
  intros Hbody. induction l as [|b l IH]; intros s; simpl.
  - reflexivity.
  - rewrite Hbody, bind_ret. apply IH.
Qed.

(** A loop whose body never prints does not print. *)
Lemma for_each_silent {B S} (body : B -> S -> M S) (l : list B) :
  (forall b s, snd (body b s) = []) ->
  forall s, snd (for_each l body s) = [].
Proof.
  intros Hbody. induction l as [|b l IH]; intros s; cbn [for_each].
  - reflexivity.
  - specialize (Hbody b s).
    destruct (body b s) as [[s'|e] out]; cbn [snd] in Hbody; subst out.
    + rewrite bind_ok. cbn [snd app]. apply IH.
    + reflexivity.
Qed.

Lemma lift_silent {A} (r : result A) : snd (lift r) = [].
Proof.
  reflexivity.
Qed.

(** ** The training loop *)

Lemma Qopp_mult_l_eq (a b : Q) : (- a * b)%Q = (- (a * b))%Q.
Proof.
  destruct a as [n d], b as [m e]. unfold Qmult, Qopp; simpl.
  now rewrite Z.mul_opp_l.
Qed.

Lemma vadd_neg_scale (lr : Q) (p g : vec) :
  vadd p (vscale (- lr)%Q g) = vsub p (vscale lr g).
Proof.
  unfold vadd, vsub, vscale. revert g.
  induction p as [|a p IH]; intros [|q g]; simpl; try reflexivity.
  rewrite IH. unfold Qminus. now rewrite Qopp_mult_l_eq.
Qed.

Section Training.

Variable lossv : vec -> list Q -> covariates -> Q.
Variable gradv : vec -> list Q -> covariates -> vec.
Variable data : DataLoader.t.
Variable lr : Q.

Lemma train_batch_total (b : batch) (p : vec) (st : step_val) (al : Q) (ab : nat) :
  train_batch (total_fg lossv gradv) lr b (p, st, al, ab)
  = ret (gd_update lr gradv p b,
         StepVector (vscale (- lr)%Q (gradv p (fst b) (snd b))),
         (al + lossv p (fst b) (snd b))%Q, ab + 1).
Proof.
  destruct b as [y_bat x_bat]. unfold train_batch, total_fg, gd_update.
  rewrite bind_lift_ok. cbn [fst snd]. now rewrite vadd_neg_scale.
Qed.

Lemma train_batches_total (l : list batch) :
  forall p st al ab,
    exists st' al',
      for_each l (train_batch (total_fg lossv gradv) lr) (p, st, al, ab)
      = ret (gd_pass lr gradv l p, st', al', ab + length l)
      /\ (l = [] -> st' = st).
Proof.
  induction l as [|b l IH]; intros p st al ab.
  - exists st, al. split; [|reflexivity]. simpl. now rewrite Nat.add_0_r.
  - cbn [for_each]. rewrite train_batch_total, bind_ret.
    destruct (IH (gd_update lr gradv p b)
                 (StepVector (vscale (- lr)%Q (gradv p (fst b) (snd b))))
                 (al + lossv p (fst b) (snd b))%Q (ab + 1))
      as [st' [al' [H _]]].
    exists st', al'. split; [|discriminate].
    rewrite H. unfold gd_pass. cbn [fold_left length].
    now replace (ab + 1 + length l) with (ab + S (length l)) by lia.
Qed.

Lemma train_epoch_total (ep : nat) (p : vec) (st : step_val) :
  DataLoader.iter data <> [] ->
  exists st' avg_loss,
    train_epoch (total_fg lossv gradv) data lr ep (p, st)
    = (Ok (gd_pass lr gradv (DataLoader.iter data) p, st'), [EpochLine ep avg_loss]).
Proof.
  intros Hne. unfold train_epoch.
  destruct (train_batches_total (DataLoader.iter data) p st 0%Q 0)
    as [st' [al' [H _]]].
  rewrite H, bind_ret.
  destruct (DataLoader.iter data) as [|b l]; [contradiction|].
  cbn [length Nat.add py_div_count].
  rewrite bind_lift_ok. exists st'. eexists. reflexivity.
Qed.

Lemma train_epochs_total (epochs : nat) :
  DataLoader.iter data <> [] ->
  forall start p st,
    exists st' out,
      for_each (seq start epochs) (train_epoch (total_fg lossv gradv) data lr) (p, st)
      = (Ok (gd_epochs lr gradv (DataLoader.iter data) epochs p, st'), out)
      /\ Forall2 is_epoch_line (seq start epochs) out.
Proof.
  intros Hne. induction epochs as [|n IH]; intros start p st.
  - exists st, []. split; [reflexivity | constructor].
  - cbn [seq for_each].
    destruct (train_epoch_total start p st Hne) as [st1 [avg H1]].
    destruct (IH (S start) (gd_pass lr gradv (DataLoader.iter data) p) st1)
      as [st' [out [H2 HF]]].
    rewrite H1, bind_ok, H2. cbn [fst snd app gd_epochs].
    exists st', (EpochLine start avg :: out). split; [reflexivity|].
    constructor; [exists avg; reflexivity | exact HF].
Qed.

End Training.

Lemma iter_nonempty (y : list Q) (x : covariates) (B : nat) (d : DataLoader.t) :
  DataLoader.init y x B = Ok d ->
  B <= length y ->
  DataLoader.iter d <> [].
Proof.
  intros Hd HB Hnil.
  destruct (init_inv _ _ _ _ Hd) as [Hpos ->].
  apply (f_equal (@length batch)) in Hnil.
  unfold DataLoader.iter in Hnil. rewrite iter_loop_length in Hnil.
  cbn [DataLoader.num_batches length] in Hnil.
  pose proof (Nat.div_str_pos (length y) B ltac:(lia)). lia.
Qed.

Lemma iter_empty (y : list Q) (x : covariates) (B : nat) (d : DataLoader.t) :
  DataLoader.init y x B = Ok d ->
  length y < B ->
  DataLoader.iter d = [].
Proof.
  intros Hd HB.
  destruct (init_inv _ _ _ _ Hd) as [Hpos ->].
  unfold DataLoader.iter. cbn [DataLoader.num_batches].
  now rewrite (Nat.div_small _ _ HB).
Qed.

Lemma train_batches_completed
      (fg : vec -> list Q -> covariates -> result (Q * vec)) (lr : Q)
      (l : list batch) :
  forall p st al ab p' st' al' ab' out,
    for_each l (train_batch fg lr) (p, st, al, ab) = (Ok (p', st', al', ab'), out) ->
    p' = gd_pass lr (grad_of fg) l p /\ out = [] /\ ab' = ab + length l.
Proof.
  induction l as [|b l IH]; intros p st al ab p' st' al' ab' out H.
  - cbn in H. inversion H; subst. repeat split. cbn. lia.
  - cbn [for_each] in H. apply bind_ok_inv in H.
    destruct H as [[[[p1 st1] al1] ab1] [o1 [o2 [H1 [H2 Ho]]]]].
    destruct b as [yb xb]. unfold train_batch in H1.
    destruct (fg p yb xb) as [[v gr]|e] eqn:E; [|discriminate].
    rewrite bind_lift_ok in H1. inversion H1; subst.
    destruct (IH _ _ _ _ _ _ _ _ _ H2) as [Hp [Ho2 Hab]].
    subst. repeat split.
    + unfold gd_pass. cbn [fold_left]. f_equal.
      unfold gd_update, grad_of. cbn [fst snd]. rewrite E.
      apply vadd_neg_scale.
    + cbn [length]. lia.
Qed.

Lemma train_epoch_completed
      (fg : vec -> list Q -> covariates -> result (Q * vec)) (d : DataLoader.t)
      (lr : Q) (ep : nat) (p : vec) (st : step_val) (p' : vec) (st' : step_val)
      (out : list line) :
  train_epoch fg d lr ep (p, st) = (Ok (p', st'), out) ->
  p' = gd_pass lr (grad_of fg) (DataLoader.iter d) p /\
  exists avg_loss, out = [EpochLine ep avg_loss].
Proof.
  unfold train_epoch. intros H. apply bind_ok_inv in H.
  destruct H as [[[[p1 st1] al1] ab1] [o1 [o2 [H1 [H2 Ho]]]]].
  apply train_batches_completed in H1. destruct H1 as [Hp [Ho1 _]].
  destruct ab1 as [|n]; [discriminate|].
  cbn [py_div_count] in H2. rewrite bind_lift_ok in H2.
  inversion H2; subst. split; [reflexivity|]. now eexists.
Qed.

Lemma train_completed
      (fg : vec -> list Q -> covariates -> result (Q * vec)) (d : DataLoader.t)
      (lr : Q) (epochs : nat) :
  forall start p st p' st' out,
    for_each (seq start epochs) (train_epoch fg d lr) (p, st) = (Ok (p', st'), out) ->
    p' = gd_epochs lr (grad_of fg) (DataLoader.iter d) epochs p /\
    Forall2 is_epoch_line (seq start epochs) out.
Proof.
  induction epochs as [|n IH]; intros start p st p' st' out H.
  - cbn in H. inversion H; subst. split; [reflexivity | constructor].
  - cbn [seq for_each] in H. apply bind_ok_inv in H.
    destruct H as [[p1 st1] [o1 [o2 [H1 [H2 Ho]]]]].
    apply train_epoch_completed in H1. destruct H1 as [Hp1 [avg Ho1]].
    apply IH in H2. destruct H2 as [Hp' HF]. subst.
    split; [reflexivity|]. cbn [seq app].
    constructor; [now exists avg | exact HF].
Qed.

(** C6. The training loop has no exit but the end of its [epochs] passes:
    whenever it returns, whatever the loss values were, it has printed one
    line per epoch, numbered [0 .. epochs-1], and its parameters are those
    of [epochs] successive full passes of the plain update
    [params - learning_rate * gradient] over every batch in order; and it
    does return when there is at least one batch and the value-and-gradient
    function does not raise. *)
Theorem training_runs_all_epochs :
  (forall (fg : vec -> list Q -> covariates -> result (Q * vec))
          (d : DataLoader.t) (lr : Q) (epochs : nat) (params0 : vec) (step : Q)
          (p : vec) (st : step_val) (out : list line),
      train fg d lr epochs params0 step = (Ok (p, st), out) ->
      p = gd_epochs lr (grad_of fg) (DataLoader.iter d) epochs params0 /\
      Forall2 is_epoch_line (seq 0 epochs) out /\
      length out = epochs) /\
  (forall (lossv : vec -> list Q -> covariates -> Q)
          (gradv : vec -> list Q -> covariates -> vec)
          (y : list Q) (x : covariates) (B epochs : nat) (lr step : Q)
          (params0 : vec),
      0 < B -> B <= length y ->
      exists d st out,
        DataLoader.init y x B = Ok d /\
        train (total_fg lossv gradv) d lr epochs params0 step
        = (Ok (gd_epochs lr gradv (DataLoader.iter d) epochs params0, st), out) /\
        Forall2 is_epoch_line (seq 0 epochs) out /\
        length out = epochs).
Proof.
  split.
  - intros fg d lr epochs params0 step p st out H.
    apply train_completed in H. destruct H as [Hp HF].
    split; [exact Hp|]. split; [exact HF|].
    apply Forall2_length in HF. now rewrite length_seq in HF.
  - intros lossv gradv y x B epochs lr step params0 Hpos HB.
    pose proof (init_ok y x B Hpos) as Hd.
    pose proof (iter_nonempty _ _ _ _ Hd HB) as Hne.
    destruct (train_epochs_total lossv gradv _ lr epochs Hne 0 params0 (StepScalar step))
      as [st [out [Ht HF]]].
    eexists. exists st, out. split; [exact Hd|]. split; [exact Ht|].
    split; [exact HF|].
    apply Forall2_length in HF. now rewrite length_seq in HF.
Qed.

(** C10. When the batch size exceeds the dataset size the iterator yields
    no batch; an epoch then leaves the parameters untouched with a zero
    loss total and a zero batch count, and its mean loss is the unguarded
    division of 0.0 by 0: a [ZeroDivisionError] that ends [maxlike] in its
    first epoch. *)
Theorem oversized_batch_divides_by_zero
        (value_and_grad : Model -> vec -> list Q -> covariates -> result (Q * vec))
        (grad : Model -> vec -> list Q -> covariates -> result vec)
        (hessian : Model -> vec -> list Q -> covariates -> result matrix)
        (linalg_inv : matrix -> result matrix)
        (y : list Q) (x : covariates) (model : Model) (params0 : vec)
        (B epochs : nat) (lr step : Q) (output : option string) :
  length y < B ->
  exists d,
    DataLoader.init y x B = Ok d /\
    DataLoader.iter d = [] /\
    (forall fg ep p st,
        for_each (DataLoader.iter d) (train_batch fg lr) (p, st, 0%Q, 0)
        = ret (p, st, 0%Q, 0)
        /\ py_div_count 0%Q 0 = Raise ZeroDivisionError
        /\ train_epoch fg d lr ep (p, st) = (Raise ZeroDivisionError, [])) /\
    (0 < epochs ->
     maxlike value_and_grad grad hessian linalg_inv y x model params0
             B epochs lr step output
     = (Raise ZeroDivisionError, [])).
Proof.
  intros HB.
  assert (Hpos : 0 < B) by lia.
  pose proof (init_ok y x B Hpos) as Hd.
  pose proof (iter_empty _ _ _ _ Hd HB) as Hnil.
  eexists. split; [exact Hd|]. split; [exact Hnil|]. split.
  - intros fg ep p st. unfold train_epoch. rewrite Hnil. repeat split.
  - intros Hep. unfold maxlike. rewrite Hd, bind_lift_ok.
    destruct epochs as [|n]; [lia|].
    unfold train, for_range. cbn [seq for_each].
    unfold train_epoch at 1. rewrite Hnil. reflexivity.
Qed.

(** ** Returning the point estimate only *)

Lemma for_each_ext {B S} (body body' : B -> S -> M S) (l : list B) :
  (forall b s, body b s = body' b s) ->
  forall s, for_each l body s = for_each l body' s.
Proof.
  intros Hext. induction l as [|b l IH]; intros s; cbn [for_each].
  - reflexivity.
  - rewrite Hext. destruct (body' b s) as [[s'|e] out]; [|reflexivity].
    rewrite !bind_ok. now rewrite IH.
Qed.

Lemma train_ext (fg fg' : vec -> list Q -> covariates -> result (Q * vec))
      (d : DataLoader.t) (lr : Q) (epochs : nat) (params0 : vec) (step : Q) :
  (forall p yb xb, fg p yb xb = fg' p yb xb) ->
  train fg d lr epochs params0 step = train fg' d lr epochs params0 step.
Proof.
  intros Hext. unfold train, for_range. apply for_each_ext.
  intros ep [p st]. unfold train_epoch.
  rewrite (for_each_ext (train_batch fg lr) (train_batch fg' lr)); [reflexivity|].
  intros [yb xb] [[[p' st'] al] ab]. unfold train_batch. now rewrite Hext.
Qed.

Lemma map2_length {A B C} (f : A -> B -> C) (l : list A) (l' : list B) :
  length l' = length l -> length (map2 f l l') = length l.
Proof.
  revert l'; induction l as [|a l IH]; intros [|b l'] H; simpl in *;
    try reflexivity; try discriminate.
  f_equal. apply IH. lia.
Qed.

Section ShapePreservation.

Variable gradv : vec -> list Q -> covariates -> vec.
Variable lr : Q.
Hypothesis grad_shape : forall p yb xb, length (gradv p yb xb) = length p.

Lemma gd_update_length (p : vec) (b : batch) :
  length (gd_update lr gradv p b) = length p.
Proof.
  unfold gd_update, vsub, vscale. apply map2_length.
  rewrite length_map. apply grad_shape.
Qed.

Lemma gd_pass_length (l : list batch) (p : vec) :
  length (gd_pass lr gradv l p) = length p.
Proof.
  unfold gd_pass. revert p. induction l as [|b l IH]; intros p; simpl.
  - reflexivity.
  - rewrite IH. apply gd_update_length.
Qed.

Lemma gd_epochs_length (l : list batch) (epochs : nat) (p : vec) :
  length (gd_epochs lr gradv l epochs p) = length p.
Proof.
  revert p. induction epochs as [|n IH]; intros p; simpl.
  - reflexivity.
  - rewrite IH. apply gd_pass_length.
Qed.

End ShapePreservation.

Section Beta.

Variable value_and_grad : Model -> vec -> list Q -> covariates -> result (Q * vec).
Variable grad : Model -> vec -> list Q -> covariates -> result vec.
Variable hessian : Model -> vec -> list Q -> covariates -> result matrix.
Variable linalg_inv : matrix -> result matrix.

Lemma maxlike_beta_returns (y : list Q) (x : covariates) (model : Model)
      (params0 : vec) (B epochs : nat) (lr step : Q)
      (d : DataLoader.t) (p : vec) (st : step_val) (out : list line) :
  DataLoader.init y x B = Ok d ->
  train (value_and_grad model) d lr epochs params0 step = (Ok (p, st), out) ->
  maxlike value_and_grad grad hessian linalg_inv y x model params0 B epochs
          lr step (Some "beta"%string)
  = (Ok (p, None), out).
Proof.
  intros Hd Ht. unfold maxlike. rewrite Hd, bind_lift_ok, Ht, bind_ok.
  cbn. now rewrite app_nil_r.
Qed.

Lemma maxlike_beta_trained (y : list Q) (x : covariates) (model : Model)
      (params0 : vec) (B epochs : nat) (lr step : Q) (r : vec * option matrix)
      (out : list line) :
  maxlike value_and_grad grad hessian linalg_inv y x model params0 B epochs
          lr step (Some "beta"%string) = (Ok r, out) ->
  exists d st,
    DataLoader.init y x B = Ok d /\
    train (value_and_grad model) d lr epochs params0 step = (Ok (fst r, st), out) /\
    snd r = None.
Proof.
  unfold maxlike. destruct (DataLoader.init y x B) as [d|e]; [|discriminate].
  rewrite bind_lift_ok.
  destruct (train (value_and_grad model) d lr epochs params0 step)
    as [[[p st]|e] out'] eqn:Ht; [|discriminate].
  rewrite bind_ok. cbn. rewrite app_nil_r. intros H. inversion H; subst.
  exists d, st. split; [reflexivity|]. split; [exact Ht | reflexivity].
Qed.

End Beta.

Lemma maxlike_beta_independent
      (value_and_grad : Model -> vec -> list Q -> covariates -> result (Q * vec))
      (grad grad' : Model -> vec -> list Q -> covariates -> result vec)
      (hessian hessian' : Model -> vec -> list Q -> covariates -> result matrix)
      (linalg_inv linalg_inv' : matrix -> result matrix)
      (y : list Q) (x : covariates) (model : Model)
      (params0 : vec) (B epochs : nat) (lr step : Q) :
  maxlike value_and_grad grad hessian linalg_inv y x model params0 B epochs
          lr step (Some "beta"%string)
  = maxlike value_and_grad grad' hessian' linalg_inv' y x model params0 B epochs
            lr step (Some "beta"%string).
Proof.
  unfold maxlike. destruct (DataLoader.init y x B) as [d|e]; [|reflexivity].
  rewrite !bind_lift_ok.
  destruct (train (value_and_grad model) d lr epochs params0 step)
    as [[[p st]|e] out']; reflexivity.
Qed.

Lemma train_keeps_shape
      (fg : vec -> list Q -> covariates -> result (Q * vec))
      (d : DataLoader.t) (lr : Q) (epochs : nat) (params0 : vec) (step : Q) :
  (forall p yb xb, exists v gr, fg p yb xb = Ok (v, gr) /\ length gr = length p) ->
  DataLoader.iter d <> [] ->
  exists p st out,
    train fg d lr epochs params0 step = (Ok (p, st), out) /\
    length p = length params0.
Proof.
  intros Hfg Hne.
  set (lossv := fun p yb xb =>
                  match fg p yb xb with Ok (v, _) => v | Raise _ => 0%Q end).
  set (gradv := fun p yb xb =>
                  match fg p yb xb with Ok (_, gr) => gr | Raise _ => p end).
  assert (Hext : forall p yb xb, fg p yb xb = total_fg lossv gradv p yb xb).
  { intros p yb xb. unfold total_fg, lossv, gradv.
    destruct (Hfg p yb xb) as [v [gr [E _]]]. now rewrite E. }
  assert (Hshape : forall p yb xb, length (gradv p yb xb) = length p).
  { intros p yb xb. unfold gradv.
    destruct (Hfg p yb xb) as [v [gr [E L]]]. now rewrite E. }
  rewrite (train_ext _ _ d lr epochs params0 step Hext).
  destruct (train_epochs_total lossv gradv d lr epochs Hne 0 params0 (StepScalar step))
    as [st [out [Ht _]]].
  exists (gd_epochs lr gradv (DataLoader.iter d) epochs params0), st, out.
  split; [exact Ht|]. now apply gd_epochs_length.
Qed.

Lemma vzeros_length (k : nat) : length (vzeros k) = k.
Proof.
  apply repeat_length.
Qed.

Section BetaBuilders.

Variable value_and_grad : Model -> vec -> list Q -> covariates -> result (Q * vec).
Variable grad : Model -> vec -> list Q -> covariates -> result vec.
Variable hessian : Model -> vec -> list Q -> covariates -> result matrix.
Variable linalg_inv : matrix -> result matrix.
Variables exp log gammaln_lib : Q -> Q.
Variable Source : Type.
Variable Table : Type.
Variable design_matrices :
  Source -> bool -> string -> result (list Q * covariates * list string).
Variable param_table : vec -> option matrix -> list string -> Table.

Hypothesis autodiff_shape :
  forall m p yb xb,
  exists v gr, value_and_grad m p yb xb = Ok (v, gr) /\ length gr = length p.

Lemma glm_beta (src : Source) (extra : option (list string)) (link : Q -> Q)
      (loss : loss_type extra) (kw : kwargs)
      (y_vec : list Q) (x_mat : covariates) (names : list string) :
  output kw = Some "beta"%string ->
  design_matrices src (intercept kw) (drop kw) = Ok (y_vec, x_mat, names) ->
  0 < kw_batch_size kw <= length y_vec ->
  exists beta out d st,
    glm value_and_grad grad hessian linalg_inv design_matrices param_table
        src extra link loss kw
    = (Ok (RetBeta Table beta), out) /\
    length beta
    = length (match extra with Some l => l | None => [] end) + snd (shape x_mat) /\
    DataLoader.init y_vec x_mat (kw_batch_size kw) = Ok d /\
    train (value_and_grad
             (glm_model (snd (shape x_mat)) link (loss1_of extra loss)))
          d (kw_learning_rate kw) (kw_epochs kw)
          (vzeros (length (match extra with Some l => l | None => [] end)
                   + snd (shape x_mat)))
          (kw_step kw)
    = (Ok (beta, st), out).
Proof.
  intros Hout Hdm [Hpos HB]. unfold glm.
  rewrite Hdm, bind_lift_ok. destruct (shape x_mat) as [N K] eqn:Hs.
  rewrite Hout. cbn [snd].
  pose proof (init_ok y_vec x_mat (kw_batch_size kw) Hpos) as Hd.
  pose proof (iter_nonempty _ _ _ _ Hd HB) as Hne.
  destruct extra as [l|].
  - destruct (train_keeps_shape
                (value_and_grad (glm_model K link loss)) _ (kw_learning_rate kw)
                (kw_epochs kw) (vzeros (length l + K)) (kw_step kw)
                (autodiff_shape _) Hne) as [p [st [out [Ht Hlen]]]].
    rewrite (maxlike_beta_returns value_and_grad grad hessian linalg_inv
               _ _ _ _ _ _ _ _ _ _ _ _ Hd Ht).
    rewrite bind_ok. cbn. rewrite app_nil_r.
    exists p, out. eexists. exists st. split; [reflexivity|].
    split; [now rewrite Hlen, vzeros_length|]. split; [exact Hd | exact Ht].
  - destruct (train_keeps_shape
                (value_and_grad (glm_model K link (fun _ yh y => loss yh y)))
                _ (kw_learning_rate kw)
                (kw_epochs kw) (vzeros (0 + K)) (kw_step kw)
                (autodiff_shape _) Hne) as [p [st [out [Ht Hlen]]]].
    cbn [length].
    rewrite (maxlike_beta_returns value_and_grad grad hessian linalg_inv
               _ _ _ _ _ _ _ _ _ _ _ _ Hd Ht).
    rewrite bind_ok. cbn. rewrite app_nil_r.
    exists p, out. eexists. exists st. split; [reflexivity|].
    split; [now rewrite Hlen, vzeros_length|]. split; [exact Hd | exact Ht].
Qed.

Lemma build_beta (f : family) (src : Source) (kw : kwargs)
      (y_vec : list Q) (x_mat : covariates) (names : list string) :
  output kw = Some "beta"%string ->
  design_matrices src (intercept kw) (drop kw) = Ok (y_vec, x_mat, names) ->
  0 < kw_batch_size kw <= length y_vec ->
  exists beta out d st,
    build value_and_grad grad hessian linalg_inv exp log gammaln_lib
          design_matrices param_table f src kw
    = (Ok (RetBeta Table beta), out) /\
    length beta = length (family_extra f) + snd (shape x_mat) /\
    DataLoader.init y_vec x_mat (kw_batch_size kw) = Ok d /\
    train (value_and_grad
             (glm_model (snd (shape x_mat)) (family_link exp f)
                        (family_loss1 exp log gammaln_lib f)))
          d (kw_learning_rate kw) (kw_epochs kw)
          (vzeros (length (family_extra f) + snd (shape x_mat))) (kw_step kw)
    = (Ok (beta, st), out).
Proof.
  intros Hout Hdm HB.
  destruct f; cbn [build family_extra];
    unfold logit, poisson, zero_inflated_poisson, negative_binomial,
           zero_inflated_negative_binomial, ordinary_least_squares;
    cbv zeta.
  - exact (glm_beta src None _ _ kw y_vec x_mat names Hout Hdm HB).
  - exact (glm_beta src None _ _ kw y_vec x_mat names Hout Hdm HB).
  - exact (glm_beta src (Some _) _ _ kw y_vec x_mat names Hout Hdm HB).
  - exact (glm_beta src (Some _) _ _ kw y_vec x_mat names Hout Hdm HB).
  - exact (glm_beta src (Some _) _ _ kw y_vec x_mat names Hout Hdm HB).
  - exact (glm_beta src (Some _) _ _ kw y_vec x_mat names Hout Hdm HB).
Qed.

End BetaBuilders.

(** C5. With [output='beta'], [maxlike] returns the parameters reached by
    the training loop paired with [None], and its outcome does not depend
    on the gradient-only, Hessian and matrix-inversion routines (none of
    them is evaluated); [glm] and each family builder then return the
    parameter vector alone: the very vector that the training loop reaches
    on the objective of the family from [P + K] zeros, with the output of
    that training, and of length the number [P] of extra parameters plus
    the number [K] of design-matrix columns. *)
Theorem beta_output_returns_parameters_only
        (value_and_grad : Model -> vec -> list Q -> covariates -> result (Q * vec))
        (grad : Model -> vec -> list Q -> covariates -> result vec)
        (hessian : Model -> vec -> list Q -> covariates -> result matrix)
        (linalg_inv : matrix -> result matrix)
        (exp log gammaln_lib : Q -> Q)
        (Source Table : Type)
        (design_matrices :
           Source -> bool -> string -> result (list Q * covariates * list string))
        (param_table : vec -> option matrix -> list string -> Table) :
  (forall y x model params0 B epochs lr step,
      (forall d p st out,
          DataLoader.init y x B = Ok d ->
          train (value_and_grad model) d lr epochs params0 step = (Ok (p, st), out) ->
          maxlike value_and_grad grad hessian linalg_inv y x model params0
                  B epochs lr step (Some "beta"%string)
          = (Ok (p, None), out)) /\
      (forall grad' hessian' linalg_inv',
          maxlike value_and_grad grad hessian linalg_inv y x model params0
                  B epochs lr step (Some "beta"%string)
          = maxlike value_and_grad grad' hessian' linalg_inv' y x model params0
                    B epochs lr step (Some "beta"%string))) /\
  ((forall m p yb xb,
       exists v gr, value_and_grad m p yb xb = Ok (v, gr) /\ length gr = length p) ->
   forall src kw y_vec x_mat names,
     output kw = Some "beta"%string ->
     design_matrices src (intercept kw) (drop kw) = Ok (y_vec, x_mat, names) ->
     0 < kw_batch_size kw <= length y_vec ->
     (forall extra link loss,
         exists beta out d st,
           glm value_and_grad grad hessian linalg_inv design_matrices param_table
               src extra link loss kw
           = (Ok (RetBeta Table beta), out) /\
           length beta
           = length (match extra with Some l => l | None => [] end)
             + snd (shape x_mat) /\
           DataLoader.init y_vec x_mat (kw_batch_size kw) = Ok d /\
           train (value_and_grad
                    (glm_model (snd (shape x_mat)) link (loss1_of extra loss)))
                 d (kw_learning_rate kw) (kw_epochs kw)
                 (vzeros (length (match extra with Some l => l | None => [] end)
                          + snd (shape x_mat)))
                 (kw_step kw)
           = (Ok (beta, st), out)) /\
     (forall f,
         exists beta out d st,
           build value_and_grad grad hessian linalg_inv exp log gammaln_lib
                 design_matrices param_table f src kw
           = (Ok (RetBeta Table beta), out) /\
           length beta = length (family_extra f) + snd (shape x_mat) /\
           DataLoader.init y_vec x_mat (kw_batch_size kw) = Ok d /\
           train (value_and_grad
                    (glm_model (snd (shape x_mat)) (family_link exp f)
                               (family_loss1 exp log gammaln_lib f)))
                 d (kw_learning_rate kw) (kw_epochs kw)
                 (vzeros (length (family_extra f) + snd (shape x_mat)))
                 (kw_step kw)
           = (Ok (beta, st), out))).
Proof.
  split.
  - intros y x model params0 B epochs lr step. split.
    + intros d p st out. apply maxlike_beta_returns.
    + intros grad' hessian' linalg_inv'. apply maxlike_beta_independent.
  - intros Hshape src kw y_vec x_mat names Hout Hdm HB. split.
    + intros extra link loss.
      exact (glm_beta value_and_grad grad hessian linalg_inv Source Table
                      design_matrices param_table Hshape
                      src extra link loss kw y_vec x_mat names Hout Hdm HB).
    + intros f.
      exact (build_beta value_and_grad grad hessian linalg_inv exp log
                        gammaln_lib Source Table design_matrices param_table
                        Hshape f src kw y_vec x_mat names Hout Hdm HB).
Qed.

(** ** The Hessian block *)

Lemma bind_log {A B} (m : M A) (f : A -> M B) :
  snd (bind m f)
  = snd m ++ match fst m with Ok a => snd (f a) | Raise _ => [] end.
Proof.
  destruct m as [[a|e] out]; cbn [fst snd].
  - now rewrite bind_ok.
  - cbn. now rewrite app_nil_r.
Qed.

Lemma for_each_log {B S} (P : line -> Prop) (body : B -> S -> M S) (l : list B) :
  (forall b s, Forall P (snd (body b s))) ->
  forall s, Forall P (snd (for_each l body s)).
Proof.
  intros Hbody. induction l as [|b l IH]; intros s; cbn [for_each].
  - constructor.
  - rewrite bind_log. apply Forall_app. split; [apply Hbody|].
    destruct (fst (body b s)); [apply IH | constructor].
Qed.

Lemma for_each_pure_in {B S} (f : S -> B -> S) (body : B -> S -> M S) (l : list B) :
  (forall b, In b l -> forall s, body b s = ret (f s b)) ->
  forall s, for_each l body s = ret (fold_left f l s).
Proof.
  induction l as [|b l IH]; intros Hbody s; cbn [for_each fold_left].
  - reflexivity.
  - rewrite (Hbody b (or_introl eq_refl)), bind_ret.
    apply IH. intros b' Hb'. apply Hbody. now right.
Qed.

Lemma train_batch_silent
      (fg : vec -> list Q -> covariates -> result (Q * vec)) (lr : Q)
      (b : batch) (s : vec * step_val * Q * nat) :
  snd (train_batch fg lr b s) = [].
Proof.
  destruct b as [yb xb], s as [[[p st] al] ab]. unfold train_batch.
  destruct (fg p yb xb) as [[v gr]|e]; reflexivity.
Qed.

Lemma train_log (fg : vec -> list Q -> covariates -> result (Q * vec))
      (d : DataLoader.t) (lr : Q) (epochs : nat) (params0 : vec) (step : Q) :
  Forall epoch_line (snd (train fg d lr epochs params0 step)).
Proof.
  unfold train, for_range. apply for_each_log.
  intros ep [p st]. unfold train_epoch.
  rewrite bind_log, (for_each_silent _ _ (train_batch_silent fg lr)).
  cbn [app].
  destruct (fst (for_each (DataLoader.iter d) (train_batch fg lr) (p, st, 0%Q, 0)))
    as [[[[p' st'] al] ab]|e]; [|constructor].
  destruct ab as [|n]; cbn; [constructor|].
  constructor; [|constructor]. now eexists; eexists.
Qed.

Section HessianBlock.

Variable g_fun : vec -> list Q -> covariates -> result vec.
Variable h_fun : vec -> list Q -> covariates -> result matrix.
Variable d : DataLoader.t.

Lemma exact_hessian_silent (p : vec) (B N K : nat) :
  snd (exact_hessian h_fun d p B N K) = [].
Proof.
  unfold exact_hessian. rewrite bind_log, for_each_silent.
  - destruct (fst _); [|reflexivity]. destruct N; reflexivity.
  - intros [yb xb] s. destruct (h_fun p yb xb); reflexivity.
Qed.

Lemma fd_row_silent (p : vec) (diff : matrix) (g0 : vec) (yb : list Q)
      (xb : covariates) (i : nat) (rows : matrix) :
  snd (fd_row g_fun p diff g0 yb xb i rows) = [].
Proof.
  unfold fd_row. destruct (g_fun _ yb xb); reflexivity.
Qed.

Lemma fd_hessian_silent (p : vec) (st : step_val) (B N K : nat) :
  snd (fd_hessian g_fun d p st B N K) = [].
Proof.
  unfold fd_hessian. rewrite bind_log, for_each_silent.
  - destruct (fst _) as [rows|e]; [|reflexivity].
    destruct rows; [reflexivity|]. destruct N; reflexivity.
  - intros [yb xb] s. rewrite bind_log.
    destruct (g_fun p yb xb) as [g0|e]; cbn [lift fst snd app]; [|reflexivity].
    apply for_each_silent. intros i rows. apply fd_row_silent.
Qed.

(** The block does not recover from success: it returns the exact Hessian
    and prints nothing. *)
Lemma hessian_block_exact (p : vec) (st : step_val) (B N K : nat) (H : matrix) :
  fst (exact_hessian h_fun d p B N K) = Ok H ->
  hessian_block g_fun h_fun d p st B N K = (Ok H, []).
Proof.
  intros E. unfold hessian_block.
  pose proof (exact_hessian_silent p B N K) as Hs.
  destruct (exact_hessian h_fun d p B N K) as [r out]. cbn [fst snd] in *.
  subst. reflexivity.
Qed.

(** The block recovers from every error of its body: it prints the error,
    prints the notice, and hands over to the finite-difference code. *)
Lemma hessian_block_fallback (p : vec) (st : step_val) (B N K : nat) (e : exn) :
  fst (exact_hessian h_fun d p B N K) = Raise e ->
  hessian_block g_fun h_fun d p st B N K
  = (fst (fd_hessian g_fun d p st B N K), [ErrorLine e; FallbackLine]).
Proof.
  intros E. unfold hessian_block.
  pose proof (exact_hessian_silent p B N K) as Hs.
  pose proof (fd_hessian_silent p st B N K) as Hf.
  destruct (exact_hessian h_fun d p B N K) as [r out]. cbn [fst snd] in *.
  subst. unfold try_except, print.
  destruct (fd_hessian g_fun d p st B N K) as [r' out']. cbn [fst snd] in *.
  subst. reflexivity.
Qed.

Lemma exact_hessian_total (p : vec) (B N K : nat) (H : batch -> matrix) :
  N <> 0 ->
  (forall b, In b (DataLoader.iter d) -> h_fun p (fst b) (snd b) = Ok (H b)) ->
  exact_hessian h_fun d p B N K
  = (Ok (aggregate_hessian H (DataLoader.iter d) B N K), []).
Proof.
  intros HN HH. unfold exact_hessian.
  rewrite (for_each_pure_in (fun acc b => madd acc (H b))).
  - rewrite bind_ret. destruct N; [contradiction|]. reflexivity.
  - intros [yb xb] Hin s. pose proof (HH _ Hin) as E. cbn [fst snd] in E.
    cbn beta iota. rewrite E. reflexivity.
Qed.

End HessianBlock.

Section AfterTraining.

Variable value_and_grad : Model -> vec -> list Q -> covariates -> result (Q * vec).
Variable grad : Model -> vec -> list Q -> covariates -> result vec.
Variable hessian : Model -> vec -> list Q -> covariates -> result matrix.
Variable linalg_inv : matrix -> result matrix.
Variables (y : list Q) (x : covariates) (model : Model) (params0 : vec).
Variables (B epochs : nat) (lr step : Q) (output : option string).

Lemma maxlike_init_raises (e : exn) :
  DataLoader.init y x B = Raise e ->
  maxlike value_and_grad grad hessian linalg_inv y x model params0 B epochs
          lr step output
  = (Raise e, []).
Proof.
  intros Hd. unfold maxlike. now rewrite Hd.
Qed.

Lemma maxlike_train_raises (d : DataLoader.t) (e : exn) (out : list line) :
  DataLoader.init y x B = Ok d ->
  train (value_and_grad model) d lr epochs params0 step = (Raise e, out) ->
  maxlike value_and_grad grad hessian linalg_inv y x model params0 B epochs
          lr step output
  = (Raise e, out).
Proof.
  intros Hd Ht. unfold maxlike. now rewrite Hd, bind_lift_ok, Ht.
Qed.

(** Past the training loop, without [output='beta'], the outcome is that
    of the Hessian block followed by the unguarded matrix inversion. *)
Lemma maxlike_trained (d : DataLoader.t) (p : vec) (st : step_val)
      (out : list line) :
  DataLoader.init y x B = Ok d ->
  train (value_and_grad model) d lr epochs params0 step = (Ok (p, st), out) ->
  output_is_beta output = false ->
  maxlike value_and_grad grad hessian linalg_inv y x model params0 B epochs
          lr step output
  = (match fst (hessian_block (grad model) (hessian model) d p st B
                              (length y) (length params0)) with
     | Ok H =>
         match linalg_inv H with
         | Ok Hi => Ok (p, Some (mdiv Hi (Qnat (length y))))
         | Raise e => Raise e
         end
     | Raise e => Raise e
     end,
     out ++ snd (hessian_block (grad model) (hessian model) d p st B
                               (length y) (length params0))).
Proof.
  intros Hd Ht Hbeta. unfold maxlike.
  rewrite Hd, bind_lift_ok, Ht, bind_ok, Hbeta.
  destruct (hessian_block (grad model) (hessian model) d p st B
                          (length y) (length params0)) as [[H|e] lg];
    cbn [fst snd]; [|reflexivity].
  rewrite bind_ok. cbn [fst snd].
  destruct (linalg_inv H) as [Hi|e]; cbn; now rewrite app_nil_r.
Qed.

End AfterTraining.

(** ** Entries of the aggregate Hessian and of the covariance *)

Lemma nth_map2 {A B C} (f : A -> B -> C) (l : list A) (l' : list B)
      (i : nat) (d : C) (da : A) (db : B) :
  i < length l -> i < length l' ->
  nth i (map2 f l l') d = f (nth i l da) (nth i l' db).
Proof.
  revert l l'. induction i as [|i IH]; intros [|a l] [|b l'] Hl Hl';
    cbn in *; try lia; try reflexivity.
  apply IH; lia.
Qed.

Lemma Forall_map2 {A B C} (P : A -> Prop) (P' : B -> Prop) (R : C -> Prop)
      (f : A -> B -> C) (l : list A) (l' : list B) :
  (forall a b, P a -> P' b -> R (f a b)) ->
  Forall P l -> Forall P' l' -> Forall R (map2 f l l').
Proof.
  intros Hf Hl. revert l'. induction Hl as [|a l Ha Hl IH]; intros l' Hl'.
  - constructor.
  - destruct Hl' as [|b l' Hb Hl']; cbn [map2]; constructor.
    + now apply Hf.
    + now apply IH.
Qed.

Lemma is_square_row (K : nat) (m : matrix) (i : nat) :
  is_square K m -> i < K -> length (nth i m []) = K.
Proof.
  intros [Hlen Hrows] Hi. rewrite Forall_forall in Hrows.
  apply Hrows, nth_In. lia.
Qed.

Lemma madd_square (K : nat) (a b : matrix) :
  is_square K a -> is_square K b -> is_square K (madd a b).
Proof.
  intros [Ha Hra] [Hb Hrb]. unfold madd. split.
  - rewrite map2_length; lia.
  - apply (Forall_map2 (fun r => length r = K) (fun r => length r = K));
      [|assumption|assumption].
    intros r r' Hr Hr'. unfold vadd. rewrite map2_length; lia.
Qed.

Lemma entry_madd (K : nat) (a b : matrix) (i j : nat) :
  is_square K a -> is_square K b -> i < K -> j < K ->
  entry (madd a b) i j = (entry a i j + entry b i j)%Q.
Proof.
  intros Ha Hb Hi Hj. unfold entry, madd.
  rewrite (nth_map2 vadd a b i [] [] []) by (destruct Ha, Hb; lia).
  unfold vadd. apply nth_map2.
  - now rewrite (is_square_row K a i Ha Hi).
  - now rewrite (is_square_row K b i Hb Hi).
Qed.

Lemma mzeros_square (K : nat) : is_square K (mzeros K K).
Proof.
  unfold mzeros. split; [apply repeat_length|].
  apply Forall_forall. intros r Hr. apply repeat_spec in Hr. subst r.
  apply vzeros_length.
Qed.

Lemma entry_mzeros (K i j : nat) : entry (mzeros K K) i j = 0%Q.
Proof.
  unfold entry, mzeros, vzeros.
  destruct (Nat.lt_ge_cases i K) as [Hi|Hi].
  - rewrite (nth_indep _ [] (repeat 0%Q K)) by now rewrite repeat_length.
    rewrite nth_repeat. apply nth_repeat.
  - rewrite (nth_overflow (repeat (repeat 0%Q K) K)) by now rewrite repeat_length.
    now destruct j.
Qed.

Lemma sum_of_hessians (K : nat) (H : batch -> matrix) (batches : list batch) :
  (forall b, In b batches -> is_square K (H b)) ->
  forall acc,
    is_square K acc ->
    is_square K (fold_left (fun acc b => madd acc (H b)) batches acc) /\
    forall i j, i < K -> j < K ->
      entry (fold_left (fun acc b => madd acc (H b)) batches acc) i j
      = fold_left (fun s b => (s + entry (H b) i j)%Q) batches (entry acc i j).
Proof.
  induction batches as [|b l IH]; intros HH acc Hacc; cbn [fold_left].
  - split; [exact Hacc | reflexivity].
  - assert (Hb : is_square K (H b)) by (apply HH; now left).
    destruct (IH (fun b' Hb' => HH b' (or_intror Hb')) (madd acc (H b))
                 (madd_square K acc (H b) Hacc Hb)) as [Hsq Hent].
    split; [exact Hsq|].
    intros i j Hi Hj. rewrite (Hent i j Hi Hj).
    now rewrite (entry_madd K acc (H b) i j Hacc Hb Hi Hj).
Qed.

Lemma entry_map_map (g : Q -> Q) (m : matrix) (i j : nat) :
  i < length m -> j < length (nth i m []) ->
  entry (map (map g) m) i j = g (entry m i j).
Proof.
  intros Hi Hj. unfold entry.
  rewrite (nth_indep (map (map g) m) [] (map g [])) by now rewrite length_map.
  rewrite (map_nth (map g) m [] i).
  rewrite (nth_indep (map g (nth i m [])) 0%Q (g 0%Q)) by now rewrite length_map.
  apply (map_nth g).
Qed.

Lemma map_map_square (K : nat) (g : Q -> Q) (m : matrix) :
  is_square K m -> is_square K (map (map g) m).
Proof.
  intros [Hlen Hrows]. split; [now rewrite length_map|].
  apply Forall_forall. intros r Hr. apply in_map_iff in Hr.
  destruct Hr as [r0 [<- Hr0]]. rewrite length_map.
  rewrite Forall_forall in Hrows. now apply Hrows.
Qed.

(** C3. When [output] is not ['beta'] and every per-batch Hessian at the
    final parameters evaluates, the [try] block yields the sum over all
    batches of the per-batch Hessians scaled by [batch_size/N]: a [K] by [K]
    matrix whose entry [(i, j)] is the sum of the entries [(i, j)] of the
    per-batch Hessians times [batch_size/N]; and [maxlike] returns the final
    parameters together with the inverse of that aggregate divided by [N],
    entry by entry. *)
Theorem exact_hessian_covariance
        (value_and_grad : Model -> vec -> list Q -> covariates -> result (Q * vec))
        (grad : Model -> vec -> list Q -> covariates -> result vec)
        (hessian : Model -> vec -> list Q -> covariates -> result matrix)
        (linalg_inv : matrix -> result matrix)
        (y : list Q) (x : covariates) (model : Model) (params0 : vec)
        (B epochs : nat) (lr step : Q) (output : option string)
        (d : DataLoader.t) (p : vec) (st : step_val) (out : list line)
        (H : batch -> matrix) (Hi : matrix) :
  output_is_beta output = false ->
  DataLoader.init y x B = Ok d ->
  train (value_and_grad model) d lr epochs params0 step = (Ok (p, st), out) ->
  length y <> 0 ->
  (forall b, In b (DataLoader.iter d) ->
             hessian model p (fst b) (snd b) = Ok (H b)
             /\ is_square (length params0) (H b)) ->
  linalg_inv (aggregate_hessian H (DataLoader.iter d) B (length y) (length params0))
  = Ok Hi ->
  let N := length y in
  let K := length params0 in
  let A := aggregate_hessian H (DataLoader.iter d) B N K in
  exact_hessian (hessian model) d p B N K = (Ok A, []) /\
  maxlike value_and_grad grad hessian linalg_inv y x model params0 B epochs
          lr step output
  = (Ok (p, Some (mdiv Hi (Qnat N))), out) /\
  is_square K A /\
  (forall i j, i < K -> j < K ->
     entry A i j = (entry_sum H (DataLoader.iter d) i j * (Qnat B / Qnat N))%Q) /\
  length (mdiv Hi (Qnat N)) = length Hi /\
  (forall i j, i < length Hi -> j < length (nth i Hi []) ->
     entry (mdiv Hi (Qnat N)) i j = (entry Hi i j / Qnat N)%Q).
Proof.
  intros Hbeta Hd Ht HN HH Hinv. cbv zeta.
  pose proof (exact_hessian_total (hessian model) d p B (length y)
                (length params0) H HN (fun b Hb => proj1 (HH b Hb))) as He.
  split; [exact He|]. split; [|split; [|split; [|split]]].
  - rewrite (maxlike_trained value_and_grad grad hessian linalg_inv y x model
               params0 B epochs lr step output d p st out Hd Ht Hbeta).
    rewrite (hessian_block_exact (grad model) (hessian model) d p st B (length y)
               (length params0) _ (f_equal fst He)).
    cbn [fst snd]. now rewrite Hinv, app_nil_r.
  - unfold aggregate_hessian, mtimes. apply map_map_square.
    apply (sum_of_hessians (length params0) H (DataLoader.iter d)
             (fun b Hb => proj2 (HH b Hb)) _ (mzeros_square (length params0))).
  - intros i j Hi' Hj.
    destruct (sum_of_hessians (length params0) H (DataLoader.iter d)
                (fun b Hb => proj2 (HH b Hb)) _ (mzeros_square (length params0)))
      as [Hsq Hent].
    unfold aggregate_hessian, mtimes.
    rewrite entry_map_map.
    + rewrite (Hent i j Hi' Hj), entry_mzeros. reflexivity.
    + destruct Hsq as [Hlen _]. lia.
    + now rewrite (is_square_row _ _ i Hsq Hi').
  - unfold mdiv. apply length_map.
  - intros i j Hi' Hj. unfold mdiv.
    apply (entry_map_map (fun e => (e / Qnat (length y))%Q) Hi i j Hi' Hj).
Qed.

(** C4. Every error raised by the exact Hessian accumulation hands over to
    the finite-difference code after printing the error and the fallback
    notice, and the notice is printed in no other run; an error raised by
    the constructor of the batches, by the training loop, by the
    finite-difference code or by the matrix inversion is the outcome of
    [maxlike]. *)
Theorem hessian_fallback_policy
        (value_and_grad : Model -> vec -> list Q -> covariates -> result (Q * vec))
        (grad : Model -> vec -> list Q -> covariates -> result vec)
        (hessian : Model -> vec -> list Q -> covariates -> result matrix)
        (linalg_inv : matrix -> result matrix)
        (y : list Q) (x : covariates) (model : Model) (params0 : vec)
        (B epochs : nat) (lr step : Q) (output : option string) :
  let run :=
    maxlike value_and_grad grad hessian linalg_inv y x model params0 B epochs
            lr step output in
  let N := length y in
  let K := length params0 in
  let finish (p : vec) (r : result matrix) : result (vec * option matrix) :=
    match r with
    | Ok H =>
        match linalg_inv H with
        | Ok Hi => Ok (p, Some (mdiv Hi (Qnat N)))
        | Raise e => Raise e
        end
    | Raise e => Raise e
    end in
  (forall e, DataLoader.init y x B = Raise e -> run = (Raise e, [])) /\
  (forall d e out,
      DataLoader.init y x B = Ok d ->
      train (value_and_grad model) d lr epochs params0 step = (Raise e, out) ->
      run = (Raise e, out)) /\
  (forall d p st out,
      DataLoader.init y x B = Ok d ->
      train (value_and_grad model) d lr epochs params0 step = (Ok (p, st), out) ->
      output_is_beta output = false ->
      (forall e,
          fst (exact_hessian (hessian model) d p B N K) = Raise e ->
          run = (finish p (fst (fd_hessian (grad model) d p st B N K)),
                 out ++ [ErrorLine e; FallbackLine])) /\
      (forall H,
          fst (exact_hessian (hessian model) d p B N K) = Ok H ->
          run = (finish p (Ok H), out))) /\
  (In FallbackLine (snd run) ->
   exists d p st out e,
     DataLoader.init y x B = Ok d /\
     train (value_and_grad model) d lr epochs params0 step = (Ok (p, st), out) /\
     output_is_beta output = false /\
     fst (exact_hessian (hessian model) d p B N K) = Raise e /\
     snd run = out ++ [ErrorLine e; FallbackLine]).
Proof.
  cbv zeta.
  assert (Hno : forall out, Forall epoch_line out -> ~ In FallbackLine out).
  { intros out HF Hin. rewrite Forall_forall in HF.
    destruct (HF _ Hin) as [ep [avg E]]. discriminate. }
  split; [|split; [|split]].
  - intros e. apply maxlike_init_raises.
  - intros d e out. apply maxlike_train_raises.
  - intros d p st out Hd Ht Hbeta. split.
    + intros e He.
      rewrite (maxlike_trained value_and_grad grad hessian linalg_inv y x model
                 params0 B epochs lr step output d p st out Hd Ht Hbeta).
      now rewrite (hessian_block_fallback (grad model) (hessian model) d p st B
                     (length y) (length params0) e He).
    + intros H He.
      rewrite (maxlike_trained value_and_grad grad hessian linalg_inv y x model
                 params0 B epochs lr step output d p st out Hd Ht Hbeta).
      rewrite (hessian_block_exact (grad model) (hessian model) d p st B
                 (length y) (length params0) H He).
      cbn [fst snd]. now rewrite app_nil_r.
  - destruct (DataLoader.init y x B) as [d|e] eqn:Hd.
    2:{ rewrite (maxlike_init_raises value_and_grad grad hessian linalg_inv
                   y x model params0 B epochs lr step output e Hd).
        intros []. }
    pose proof (train_log (value_and_grad model) d lr epochs params0 step) as Hlog.
    destruct (train (value_and_grad model) d lr epochs params0 step)
      as [[[p st]|e] out] eqn:Ht; cbn [snd] in Hlog.
    2:{ rewrite (maxlike_train_raises value_and_grad grad hessian linalg_inv
                   y x model params0 B epochs lr step output d e out Hd Ht).
        intros Hin. now apply Hno in Hin. }
    destruct (output_is_beta output) eqn:Hbeta.
    { unfold maxlike. rewrite Hd, bind_lift_ok, Ht, bind_ok, Hbeta.
      cbn [ret fst snd]. rewrite app_nil_r. intros Hin. now apply Hno in Hin. }
    rewrite (maxlike_trained value_and_grad grad hessian linalg_inv y x model
               params0 B epochs lr step output d p st out Hd Ht Hbeta).
    destruct (fst (exact_hessian (hessian model) d p B (length y) (length params0)))
      as [H|e] eqn:He.
    + rewrite (hessian_block_exact (grad model) (hessian model) d p st B
                 (length y) (length params0) H He).
      cbn [fst snd]. rewrite app_nil_r. intros Hin. now apply Hno in Hin.
    + rewrite (hessian_block_fallback (grad model) (hessian model) d p st B
                 (length y) (length params0) e He).
      cbn [fst snd]. intros _.
      exists d, p, st, out, e. repeat split; auto.
Qed.

(** ** The name [step] after training *)

Lemma train_batches_rebind
      (fg : vec -> list Q -> covariates -> result (Q * vec)) (lr : Q)
      (l : list batch) :
  forall p st al ab p' st' al' ab' out,
    for_each l (train_batch fg lr) (p, st, al, ab) = (Ok (p', st', al', ab'), out) ->
    ab' = ab + length l /\
    (l <> [] \/ is_vector st -> is_vector st').
Proof.
  induction l as [|b l IH]; intros p st al ab p' st' al' ab' out H.
  - cbn in H. inversion H; subst. split; [cbn; lia|].
    intros [Hne|Hv]; [contradiction | exact Hv].
  - cbn [for_each] in H. apply bind_ok_inv in H.
    destruct H as [[[[p1 st1] al1] ab1] [o1 [o2 [H1 [H2 _]]]]].
    destruct b as [yb xb]. unfold train_batch in H1.
    destruct (fg p yb xb) as [[v gr]|e]; [|discriminate].
    rewrite bind_lift_ok in H1. inversion H1; subst.
    destruct (IH _ _ _ _ _ _ _ _ _ H2) as [Hab Hst].
    split; [cbn [length]; lia|].
    intros _. apply Hst. right. now eexists.
Qed.

Lemma train_epoch_rebinds
      (fg : vec -> list Q -> covariates -> result (Q * vec)) (d : DataLoader.t)
      (lr : Q) (ep : nat) (p : vec) (st : step_val) (p' : vec) (st' : step_val)
      (out : list line) :
  train_epoch fg d lr ep (p, st) = (Ok (p', st'), out) ->
  is_vector st'.
Proof.
  unfold train_epoch. intros H. apply bind_ok_inv in H.
  destruct H as [[[[p1 st1] al1] ab1] [o1 [o2 [H1 [H2 _]]]]].
  apply train_batches_rebind in H1. destruct H1 as [Hab Hst].
  destruct ab1 as [|n]; [discriminate|].
  cbn [py_div_count] in H2. rewrite bind_lift_ok in H2.
  inversion H2; subst.
  apply Hst. left. intros Hnil. rewrite Hnil in Hab. cbn in Hab. lia.
Qed.

Lemma train_rebinds_step
      (fg : vec -> list Q -> covariates -> result (Q * vec)) (d : DataLoader.t)
      (lr : Q) (epochs : nat) (params0 : vec) (step : Q)
      (p : vec) (st : step_val) (out : list line) :
  train fg d lr epochs params0 step = (Ok (p, st), out) ->
  0 < epochs ->
  is_vector st.
Proof.
  unfold train, for_range. intros H Hpos.
  assert (G : forall n start p0 st0 p1 st1 o,
             for_each (seq start n) (train_epoch fg d lr) (p0, st0) = (Ok (p1, st1), o) ->
             n <> 0 \/ is_vector st0 -> is_vector st1).
  { induction n as [|n IH]; intros start p0 st0 p1 st1 o Hn Hor.
    - cbn in Hn. inversion Hn; subst.
      destruct Hor as [Hne|Hv]; [contradiction | exact Hv].
    - cbn [seq for_each] in Hn. apply bind_ok_inv in Hn.
      destruct Hn as [[p2 st2] [o1 [o2 [H1 [H2 _]]]]].
      apply train_epoch_rebinds in H1.
      apply (IH _ _ _ _ _ _ H2). now right. }
  apply (G _ _ _ _ _ _ _ H). left. lia.
Qed.

(** Whenever the training loop has run at least one epoch and the exact
    Hessian raises, the handler runs with [step] bound to an update vector,
    not to the configured scalar. *)
Lemma fallback_runs_with_update_vector
      (value_and_grad : Model -> vec -> list Q -> covariates -> result (Q * vec))
      (grad : Model -> vec -> list Q -> covariates -> result vec)
      (hessian : Model -> vec -> list Q -> covariates -> result matrix)
      (linalg_inv : matrix -> result matrix)
      (y : list Q) (x : covariates) (model : Model) (params0 : vec)
      (B epochs : nat) (lr step : Q) (output : option string)
      (d : DataLoader.t) (p : vec) (st : step_val) (out : list line) (e : exn) :
  DataLoader.init y x B = Ok d ->
  train (value_and_grad model) d lr epochs params0 step = (Ok (p, st), out) ->
  0 < epochs ->
  output_is_beta output = false ->
  fst (exact_hessian (hessian model) d p B (length y) (length params0)) = Raise e ->
  exists v,
    st = StepVector v /\
    maxlike value_and_grad grad hessian linalg_inv y x model params0 B epochs
            lr step output
    = (match fst (fd_hessian (grad model) d p (StepVector v) B
                             (length y) (length params0)) with
       | Ok H =>
           match linalg_inv H with
           | Ok Hi => Ok (p, Some (mdiv Hi (Qnat (length y))))
           | Raise e' => Raise e'
           end
       | Raise e' => Raise e'
       end,
       out ++ [ErrorLine e; FallbackLine]).
Proof.
  intros Hd Ht Hep Hbeta He.
  destruct (train_rebinds_step _ _ _ _ _ _ _ _ _ Ht Hep) as [v Hv].
  exists v. split; [exact Hv|]. subst st.
  rewrite (maxlike_trained value_and_grad grad hessian linalg_inv y x model
             params0 B epochs lr step output d p (StepVector v) out Hd Ht Hbeta).
  now rewrite (hessian_block_fallback (grad model) (hessian model) d p
                 (StepVector v) B (length y) (length params0) e He).
Qed.

(** C1 (the code departs from the claim). One training epoch over one
    batch rebinds [step] to the update vector [-learning_rate * gradient]:
    with the Hessian transform failing, the handler perturbs by [1/2]
    instead of the configured [1/10000] and divides by it, so the fallback
    Hessian is [3/2] where the finite difference of the claim gives
    [10001/10000], and the returned covariance is [2/3]. *)
Theorem fallback_uses_rebound_step :
  let d := DataLoader.mk one_label one_row 1 1 1 false in
  let configured_step := (1 # 10000)%Q in
  DataLoader.init one_label one_row 1 = Ok d /\
  train (sample_value_and_grad sample_model) d (1 # 2)%Q 1 [0%Q] configured_step
  = (Ok ([(1 # 2)%Q], StepVector [(1 # 2)%Q]), [EpochLine 0 (0 # 3)]) /\
  (exists h,
      fd_hessian (sample_grad sample_model) d [(1 # 2)%Q] (StepVector [(1 # 2)%Q]) 1 1 1
      = (Ok [[h]], []) /\ (h == 3 # 2)%Q) /\
  (exists h',
      fd_hessian_spec sample_gradient (DataLoader.iter d) [(1 # 2)%Q]
                      configured_step 1 1 1
      = [[h']] /\ (h' == 10001 # 10000)%Q) /\
  (exists s,
      maxlike sample_value_and_grad sample_grad failing_hessian sample_inv
              one_label one_row sample_model [0%Q] 1 1 (1 # 2)%Q configured_step None
      = (Ok ([(1 # 2)%Q], Some [[s]]),
         [EpochLine 0 (0 # 3);
          ErrorLine (OtherError "second derivative unsupported");
          FallbackLine])
      /\ (s == 2 # 3)%Q).
Proof.
  cbv zeta. split; [reflexivity|]. split; [vm_compute; reflexivity|].
  split; [|split].
  - eexists. split; [vm_compute; reflexivity|]. vm_compute; reflexivity.
  - eexists. split; [vm_compute; reflexivity|]. vm_compute; reflexivity.
  - eexists. split; [vm_compute; reflexivity|]. vm_compute; reflexivity.
Qed.

Lemma exact_hessian_covariance_witness :
  exists Hi,
    maxlike sample_value_and_grad sample_grad sample_hessian sample_inv2
            sample_labels sample_dense sample_model [0%Q; 0%Q] 2 1
            (1 # 2)%Q (1 # 10000)%Q None
    = (Ok ([(14 # 16)%Q; (14 # 16)%Q], Some (mdiv Hi (Qnat 5))),
       [EpochLine 0 (-19008 # 41472)])
    /\
    entry (aggregate_hessian
             (fun _ => [[(28 # 16)%Q; 0%Q]; [0%Q; (28 # 16)%Q]])
             (DataLoader.iter (DataLoader.mk sample_labels sample_dense 2 5 2 false))
             2 5 2) 0 0
    = ((0 + (28 # 16) + (28 # 16)) * (Qnat 2 / Qnat 5))%Q
    /\
    entry (mdiv Hi (Qnat 5)) 0 0 = (entry Hi 0 0 / Qnat 5)%Q
    /\
    (entry (mdiv Hi (Qnat 5)) 0 0 == 1 # 7)%Q.
Proof.
  assert (E : exists Hi,
             sample_inv2
               (aggregate_hessian
                  (fun _ => [[(28 # 16)%Q; 0%Q]; [0%Q; (28 # 16)%Q]])
                  (DataLoader.iter (DataLoader.mk sample_labels sample_dense 2 5 2 false))
                  2 (length sample_labels) (length [0%Q; 0%Q]))
             = Ok Hi
             /\ 0 < length Hi /\ 0 < length (nth 0 Hi [])
             /\ (entry Hi 0 0 / Qnat 5 == 1 # 7)%Q).
  { eexists. split; [vm_compute; reflexivity|].
    split; [cbn; lia|]. split; [cbn; lia|]. vm_compute. reflexivity. }
  destruct E as [Hi [E [Hrows [Hcols Hval]]]].
  exists Hi.
  destruct (exact_hessian_covariance
              sample_value_and_grad sample_grad sample_hessian sample_inv2
              sample_labels sample_dense sample_model [0%Q; 0%Q] 2 1
              (1 # 2)%Q (1 # 10000)%Q None
              (DataLoader.mk sample_labels sample_dense 2 5 2 false)
              [(14 # 16)%Q; (14 # 16)%Q] (StepVector [(3 # 8)%Q; (3 # 8)%Q])
              [EpochLine 0 (-19008 # 41472)]
              (fun _ => [[(28 # 16)%Q; 0%Q]; [0%Q; (28 # 16)%Q]]) Hi)
    as [_ [Hrun [_ [Hent [_ Hcov]]]]].
  - reflexivity.
  - reflexivity.
  - vm_compute; reflexivity.
  - discriminate.
  - intros b _. split; [vm_compute; reflexivity|].
    split; [reflexivity | repeat constructor].
  - exact E.
  - split; [exact Hrun|]. split; [apply (Hent 0 0); cbn; lia|].
    split; [apply (Hcov 0 0); assumption|].
    pose proof (Hcov 0 0 Hrows Hcols) as Hc.
    change (length sample_labels) with 5 in Hc. rewrite Hc. exact Hval.
Defined.

Lemma hessian_fallback_policy_witness :
  maxlike sample_value_and_grad sample_grad failing_hessian sample_inv
          one_label one_row sample_model [0%Q] 1 1 (1 # 2)%Q (1 # 10000)%Q None
  = (Ok ([(1 # 2)%Q], Some [[(64 # 96)%Q]]),
     [EpochLine 0 (0 # 3)]
       ++ [ErrorLine (OtherError "second derivative unsupported"); FallbackLine]).
Proof.
  destruct (hessian_fallback_policy
              sample_value_and_grad sample_grad failing_hessian sample_inv
              one_label one_row sample_model [0%Q] 1 1 (1 # 2)%Q (1 # 10000)%Q None)
    as [_ [_ [Hblock _]]].
  destruct (Hblock (DataLoader.mk one_label one_row 1 1 1 false)
                   [(1 # 2)%Q] (StepVector [(1 # 2)%Q]) [EpochLine 0 (0 # 3)])
    as [Hfall _].
  - reflexivity.
  - vm_compute; reflexivity.
  - reflexivity.
  - rewrite (Hfall (OtherError "second derivative unsupported")).
    + vm_compute; reflexivity.
    + vm_compute; reflexivity.
Defined.

Lemma beta_output_returns_parameters_only_witness :
  exists beta out st,
    build sample_value_and_grad sample_grad sample_hessian sample_inv
          (fun x => 1 + x)%Q (fun x => x - 1)%Q (fun x => x)
          sample_design sample_table ZeroInflatedPoisson tt beta_kwargs
    = (Ok (RetBeta unit beta), out)
    /\ length beta = 1 + 1
    /\ train (sample_value_and_grad
                (glm_model 1
                   (family_link (fun x => 1 + x)%Q ZeroInflatedPoisson)
                   (family_loss1 (fun x => 1 + x)%Q (fun x => x - 1)%Q
                                 (fun x => x) ZeroInflatedPoisson)))
             (DataLoader.mk sample_labels sample_dense 2 5 2 false)
             (1 # 2)%Q 3 (vzeros (1 + 1)) (1 # 10000)%Q
       = (Ok (beta, st), out).
Proof.
  destruct (beta_output_returns_parameters_only
              sample_value_and_grad sample_grad sample_hessian sample_inv
              (fun x => 1 + x)%Q (fun x => x - 1)%Q (fun x => x)
              unit unit sample_design sample_table)
    as [_ Hbuild].
  destruct (Hbuild
              (fun m p yb xb =>
                 ex_intro _ (m p yb xb)
                   (ex_intro _ (sample_gradient p yb xb)
                      (conj eq_refl (length_map _ p))))
              tt beta_kwargs sample_labels sample_dense ["x1"%string]
              eq_refl eq_refl (conj (le_S _ _ (le_n 1)) (le_S _ _ (le_S _ _ (le_S _ _ (le_n 2))))))
    as [_ Hfam].
  destruct (Hfam ZeroInflatedPoisson) as [beta [out [d [st [H1 [H2 [H3 H4]]]]]]].
  cbn in H3. inversion H3; subst d.
  exists beta, out, st. split; [exact H1|]. split; [exact H2 | exact H4].
Defined.

Lemma training_runs_all_epochs_witness :
  exists d st out,
    DataLoader.init sample_labels sample_dense 2 = Ok d /\
    train (total_fg sample_model sample_gradient) d (1 # 2)%Q 3 [0%Q] (1 # 10000)%Q
    = (Ok (gd_epochs (1 # 2)%Q sample_gradient (DataLoader.iter d) 3 [0%Q], st), out) /\
    Forall2 is_epoch_line (seq 0 3) out /\
    length out = 3.
Proof.
  apply (proj2 training_runs_all_epochs sample_model sample_gradient
           sample_labels sample_dense 2 3 (1 # 2)%Q (1 # 10000)%Q [0%Q]).
  - lia.
  - simpl. lia.
Defined.

Lemma oversized_batch_divides_by_zero_witness :
  maxlike sample_value_and_grad sample_grad sample_hessian sample_inv
          sample_labels sample_dense sample_model [0%Q] 6 3 (1 # 2)%Q (1 # 10000)%Q None
  = (Raise ZeroDivisionError, []).
Proof.
  destruct (oversized_batch_divides_by_zero
              sample_value_and_grad sample_grad sample_hessian sample_inv
              sample_labels sample_dense sample_model [0%Q] 6 3
              (1 # 2)%Q (1 # 10000)%Q None)
    as [d [_ [_ [_ Hrun]]]].
  - simpl. lia.
  - apply Hrun. lia.
Defined.

(** ** Mixture losses *)



Lemma clip_max_above (a amax : Q) : (amax < a)%Q -> clip_max a amax = amax.
Proof.
  intros H. unfold clip_max. destruct (Qle_bool a amax) eqn:E; [|reflexivity].
  apply Qle_bool_iff in E. exfalso. exact (Qlt_not_le _ _ H E).
Qed.


(** ** The trigamma series *)

Lemma qpow_Qpower (t : Q) (n : nat) : (t ^ Z.of_nat n == qpow t n)%Q.
Proof.
  induction n as [|n IH].
  - reflexivity.
  - rewrite Nat2Z.inj_succ, <- Z.add_1_l.
    rewrite Qpower_plus' by lia.
    rewrite IH. cbn [qpow]. now rewrite Qpower_1_r.
Qed.

Lemma qpow_comp (t u : Q) (n : nat) : (t == u)%Q -> (qpow t n == qpow u n)%Q.
Proof.
  intros E. induction n as [|n IH]; cbn [qpow].
  - reflexivity.
  - now rewrite IH, E.
Qed.

Lemma poly_value_comp (s : series) (t u : Q) :
  (t == u)%Q -> (poly_value s t == poly_value s u)%Q.
Proof.
  intros E. induction s as [|[c p] s IH]; cbn [poly_value].
  - reflexivity.
  - now rewrite IH, (qpow_comp t u p E).
Qed.

Lemma series_as_poly (s : series) (x : Q) :
  (series_value s x == poly_value s (/ x))%Q.
Proof.
  induction s as [|[c p] s IH]; cbn [series_value poly_value].
  - reflexivity.
  - rewrite IH. unfold term_value. cbn [fst snd].
    now rewrite <- qpow_Qpower, Qinv_power.
Qed.

Lemma qpow_double (t : Q) (n : nat) : (qpow (2 * t) n == qpow 2 n * qpow t n)%Q.
Proof.
  induction n as [|n IH]; cbn [qpow].
  - ring.
  - rewrite IH. ring.
Qed.

Lemma qpow2_ge_1 (n : nat) : (1 <= qpow 2 n)%Q.
Proof.
  induction n as [|n IH]; cbn [qpow].
  - lra.
  - lra.
Qed.

Lemma esum_ext (f g : nat -> Q) (t : Q) (n : nat) :
  forall k,
    (forall i, k <= i < k + n -> (f i == g i)%Q) ->
    (esum f t k n == esum g t k n)%Q.
Proof.
  induction n as [|n IH]; intros k H; cbn [esum].
  - reflexivity.
  - rewrite (H k) by lia. rewrite (IH (S k)); [reflexivity|].
    intros i Hi. apply H. lia.
Qed.

Lemma esum_zero (t : Q) (n : nat) : forall k, (esum (fun _ => 0%Q) t k n == 0)%Q.
Proof.
  induction n as [|n IH]; intros k; cbn [esum].
  - reflexivity.
  - rewrite IH. ring.
Qed.

Lemma esum_plus (f g : nat -> Q) (t : Q) (n : nat) :
  forall k,
    (esum (fun i => f i + g i) t k n == esum f t k n + esum g t k n)%Q.
Proof.
  induction n as [|n IH]; intros k; cbn [esum].
  - ring.
  - rewrite IH. ring.
Qed.

Lemma esum_scale (c : Q) (f : nat -> Q) (t : Q) (n : nat) :
  forall k,
    (esum (fun i => c * f i) t k n == c * esum f t k n)%Q.
Proof.
  induction n as [|n IH]; intros k; cbn [esum].
  - ring.
  - rewrite IH. ring.
Qed.

Lemma esum_shift (f : nat -> Q) (t : Q) (n : nat) :
  forall k,
    (esum f t (S k) n == t * esum (fun i => f (S i)) t k n)%Q.
Proof.
  induction n as [|n IH]; intros k; cbn [esum qpow].
  - ring.
  - rewrite IH. ring.
Qed.

(** [sum f_i (2^(i+1) - 1) t^i = 2 * sum f_i (2t)^i - sum f_i t^i] *)
Lemma esum_twist (f : nat -> Q) (t : Q) (n : nat) :
  forall k,
    (esum (fun i => f i * (qpow 2 (S i) - 1)) t k n
     == 2 * esum f (2 * t) k n - esum f t k n)%Q.
Proof.
  induction n as [|n IH]; intros k; cbn [esum].
  - ring.
  - rewrite IH, qpow_double. cbn [qpow]. ring.
Qed.

Lemma esum_single (c : Q) (p : nat) (t : Q) (n : nat) :
  forall k,
    (esum (fun q => if Nat.eqb p q then c else 0%Q) t k n
     == if (k <=? p) && (p <? k + n) then c * qpow t p else 0)%Q.
Proof.
  induction n as [|n IH]; intros k; cbn [esum].
  - replace ((k <=? p) && (p <? k + 0)) with false; [reflexivity|].
    symmetry. apply andb_false_iff.
    destruct (Nat.leb_spec k p); [right | now left].
    apply Nat.ltb_ge. lia.
  - rewrite IH.
    destruct (Nat.eqb_spec p k) as [->|Hne].
    + replace ((S k <=? k) && (k <? S k + n)) with false
        by (symmetry; apply andb_false_iff; left; apply Nat.leb_gt; lia).
      replace ((k <=? k) && (k <? k + S n)) with true
        by (symmetry; apply andb_true_iff; split;
            [apply Nat.leb_le | apply Nat.ltb_lt]; lia).
      ring.
    + replace ((S k <=? p) && (p <? S k + n)) with ((k <=? p) && (p <? k + S n)).
      * ring.
      * replace (k + S n) with (S k + n) by lia. f_equal.
        destruct (Nat.leb_spec k p), (Nat.leb_spec (S k) p); try reflexivity; lia.
Qed.

Lemma poly_as_esum (s : series) (t : Q) (D : nat) :
  degree_bound s <= D ->
  (poly_value s t == esum (coef s) t 0 D)%Q.
Proof.
  induction s as [|[c p] s IH]; intros HD; cbn [poly_value].
  - rewrite (esum_ext (coef []) (fun _ => 0%Q)); [|reflexivity].
    now rewrite esum_zero.
  - cbn [degree_bound] in HD.
    rewrite (esum_ext (coef ((c, p) :: s))
                      (fun q => (if Nat.eqb p q then c else 0) + coef s q)%Q);
      [|reflexivity].
    rewrite esum_plus, esum_single, <- IH by lia.
    replace ((0 <=? p) && (p <? 0 + D)) with true; [reflexivity|].
    symmetry. apply andb_true_iff. split; [apply Nat.leb_le | apply Nat.ltb_lt]; lia.
Qed.

(** A polynomial that vanishes at every non-zero rational has no non-zero
    coefficient. *)
Lemma esum_vanishes (D : nat) :
  forall f : nat -> Q,
    (forall t, ~ (t == 0)%Q -> (esum f t 0 D == 0)%Q) ->
    forall i, i < D -> (f i == 0)%Q.
Proof.
  induction D as [|D IH]; intros f Hf i Hi; [lia|].
  assert (Htail : forall j, j < D -> (f (S j) == 0)%Q).
  { intros j Hj.
    assert (Hg : (f (S j) * (qpow 2 (S j) - 1) == 0)%Q).
    { apply (IH (fun i => f (S i) * (qpow 2 (S i) - 1))%Q); [|exact Hj].
      intros t Ht. rewrite esum_twist.
      pose proof (Hf t Ht) as H1.
      assert (Ht2 : ~ (2 * t == 0)%Q).
      { intros E. apply Ht. lra. }
      pose proof (Hf (2 * t)%Q Ht2) as H2.
      cbn [esum qpow] in H1, H2.
      rewrite esum_shift in H1, H2.
      apply (Qmult_inj_l _ _ t Ht).
      set (E1 := esum (fun i0 => f (S i0)) (2 * t) 0 D) in *.
      set (E2 := esum (fun i0 => f (S i0)) t 0 D) in *.
      transitivity ((f 0%nat * 1 + 2 * t * E1) - (f 0%nat * 1 + t * E2))%Q; [ring|].
      rewrite H1, H2. ring. }
    apply Qmult_integral in Hg. destruct Hg as [Hg|Hg]; [exact Hg|].
    pose proof (qpow2_ge_1 j) as Hge. cbn [qpow] in Hg. lra. }
  destruct i as [|j]; [|apply Htail; lia].
  assert (H1 : ~ (1 == 0)%Q) by (intros E; discriminate).
  pose proof (Hf 1%Q H1) as Hone. cbn [esum qpow] in Hone.
  rewrite esum_shift in Hone.
  rewrite (esum_ext (fun i => f (S i)) (fun _ => 0%Q)) in Hone.
  - rewrite esum_zero in Hone. lra.
  - intros k Hk. apply Htail. lia.
Qed.

Lemma coef_notin (s : series) (q : nat) :
  ~ In q (map snd s) -> (coef s q == 0)%Q.
Proof.
  induction s as [|[c p] s IH]; intros Hq; cbn [coef].
  - reflexivity.
  - cbn [map snd In] in Hq.
    destruct (Nat.eqb_spec p q) as [E|_]; [exfalso; apply Hq; now left|].
    rewrite IH; [ring|]. intros Hin. apply Hq. now right.
Qed.

Lemma coef_canonical (s : series) (c : Q) (p : nat) :
  NoDup (map snd s) -> In (c, p) s -> (coef s p == c)%Q.
Proof.
  induction s as [|[c' p'] s IH]; intros Hnd Hin; [contradiction|].
  cbn [map snd] in Hnd. inversion Hnd as [|? ? Hnot Hnd']; subst.
  cbn [coef]. destruct Hin as [E|Hin].
  - inversion E; subst. rewrite Nat.eqb_refl, (coef_notin s p Hnot). ring.
  - assert (Hp : In p (map snd s)) by (apply (in_map snd _ _ Hin)).
    destruct (Nat.eqb_spec p' p) as [->|_]; [contradiction|].
    rewrite (IH Hnd' Hin). ring.
Qed.

Lemma degree_bound_notin (s : series) (q : nat) :
  degree_bound s <= q -> ~ In q (map snd s).
Proof.
  induction s as [|[c p] s IH]; intros HD; cbn [degree_bound map snd In] in *.
  - tauto.
  - intros [E|Hin]; [lia|]. apply IH; [lia | exact Hin].
Qed.

(** Two series that denote the same function have the same coefficients. *)
Lemma series_coefficients (s s' : series) :
  (forall x, (series_value s x == series_value s' x)%Q) ->
  forall q, (coef s q == coef s' q)%Q.
Proof.
  intros Hval q.
  set (D := Nat.max (degree_bound s) (degree_bound s')).
  destruct (Nat.lt_ge_cases q D) as [Hq|Hq].
  - assert (H0 : (coef s q + (-1) * coef s' q == 0)%Q); [|lra].
    apply (esum_vanishes D (fun i => coef s i + (-1) * coef s' i)%Q); [|exact Hq].
    intros t _.
    rewrite esum_plus.
    rewrite esum_scale, <- !poly_as_esum by (unfold D; lia).
    pose proof (Hval (/ t)%Q) as Ht. rewrite !series_as_poly in Ht.
    rewrite (poly_value_comp s _ t (Qinv_involutive t)) in Ht.
    rewrite (poly_value_comp s' _ t (Qinv_involutive t)) in Ht.
    lra.
  - rewrite !coef_notin; [reflexivity| |];
      apply degree_bound_notin; unfold D in Hq; lia.
Qed.

(** The number of terms of a canonical series is determined by the
    function it denotes. *)
Lemma canonical_length (s s' : series) :
  canonical s -> canonical s' ->
  (forall x, (series_value s x == series_value s' x)%Q) ->
  length s <= length s'.
Proof.
  intros [Hnz Hnd] [_ Hnd'] Hval.
  rewrite <- (length_map snd s), <- (length_map snd s').
  apply NoDup_incl_length; [exact Hnd|].
  intros p Hp. apply in_map_iff in Hp. destruct Hp as [[c p'] [E Hin]].
  cbn [snd] in E. subst p'.
  destruct (in_dec Nat.eq_dec p (map snd s')) as [Hyes|Hno]; [exact Hyes|].
  exfalso. rewrite Forall_forall in Hnz. apply (Hnz _ Hin). cbn [fst].
  rewrite <- (coef_canonical s c p Hnd Hin).
  rewrite (series_coefficients s s' Hval p).
  now apply coef_notin.
Qed.

Lemma trigamma_terms_canonical : canonical trigamma_terms.
Proof.
  split.
  - repeat constructor; cbn [fst]; intros E; discriminate.
  - cbn [map snd trigamma_terms].
    repeat constructor; cbn [In]; intros H;
      repeat (destruct H as [H|H]; [discriminate|]); exact H.
Qed.

Lemma trigamma_as_series (x : Q) :
  (trigamma x == series_value trigamma_terms x)%Q.
Proof.
  unfold trigamma, trigamma_terms, series_value, term_value.
  cbn [fst snd Z.of_nat Pos.of_succ_nat Pos.succ].
  destruct (Qeq_dec x 0) as [E|Hx].
  - rewrite E. reflexivity.
  - field. repeat split; try exact Hx; apply Qpower_not_0; exact Hx.
Qed.

(** C8 (as amended). For every [x], [trigamma x] is the sum of its nine
    source summands, a canonical series of rational-coefficient reciprocal
    powers [1/x, 1/x^2, 1/x^3, 1/x^5, ..., 1/x^15]; nothing is evaluated
    but this fixed sum. *)
Theorem trigamma_is_nine_term_series (x : Q) :
  (trigamma x == series_value trigamma_terms x)%Q /\
  length trigamma_terms = 9 /\
  canonical trigamma_terms /\
  map snd trigamma_terms = [1; 2; 3; 5; 7; 9; 11; 13; 15].
Proof.
  split; [apply trigamma_as_series|].
  split; [reflexivity|].
  split; [apply trigamma_terms_canonical | reflexivity].
Qed.

(** C8 (as stated) fails: no canonical series of ten terms denotes
    [trigamma]. *)
Lemma trigamma_is_not_a_ten_term_series :
  ~ (exists s : series,
        length s = 10 /\ canonical s /\
        forall x, (trigamma x == series_value s x)%Q).
Proof.
  intros [s [Hlen [Hcan Hval]]].
  assert (Hle : length s <= length trigamma_terms).
  { apply canonical_length; [exact Hcan | apply trigamma_terms_canonical|].
    intros x. now rewrite <- Hval, trigamma_as_series. }
  rewrite Hlen in Hle. cbn in Hle. lia.
Qed.

(** ** The finite-difference handler with a scalar [step] *)

Lemma set_nth_app {A} (pre : list A) (a v : A) (suf : list A) :
  set_nth (length pre) (pre ++ a :: suf) v = pre ++ v :: suf.
Proof.
  induction pre as [|h pre IH]; cbn [length app set_nth].
  - reflexivity.
  - now rewrite IH.
Qed.

Lemma nth_app_here {A} (pre : list A) (a d : A) (suf : list A) :
  nth (length pre) (pre ++ a :: suf) d = a.
Proof.
  induction pre as [|h pre IH]; cbn [length app nth].
  - reflexivity.
  - exact IH.
Qed.

Lemma fold_set_nth {A} (F : nat -> A -> A) (d : A) (suf : list A) :
  forall pre,
    fold_left (fun rows i => set_nth i rows (F i (nth i rows d)))
              (seq (length pre) (length suf)) (pre ++ suf)
    = pre ++ mapi_from F (length pre) suf.
Proof.
  induction suf as [|a suf IH]; intros pre; cbn [length seq fold_left mapi_from].
  - reflexivity.
  - rewrite nth_app_here, set_nth_app.
    replace (pre ++ F (length pre) a :: suf)
      with ((pre ++ [F (length pre) a]) ++ suf) by now rewrite <- app_assoc.
    replace (S (length pre)) with (length (pre ++ [F (length pre) a]))
      by (rewrite length_app; cbn; lia).
    rewrite IH, <- app_assoc. reflexivity.
Qed.

Lemma mapi_from_map {A} (F : nat -> A -> A) (R : nat -> A) (n : nat) :
  forall k, mapi_from F k (map R (seq k n)) = map (fun i => F i (R i)) (seq k n).
Proof.
  induction n as [|n IH]; intros k; cbn [seq map mapi_from].
  - reflexivity.
  - now rewrite IH.
Qed.

Lemma repeat_as_map {A} (a : A) (n : nat) :
  forall k, repeat a n = map (fun _ => a) (seq k n).
Proof.
  induction n as [|n IH]; intros k; cbn [repeat seq map].
  - reflexivity.
  - now rewrite (IH (S k)).
Qed.

Lemma vstack_map_seq (R : nat -> vec) (K : nat) :
  vstack (map R (seq 0 K))
  = if Nat.eqb K 0 then Raise ValueError else Ok (map R (seq 0 K)).
Proof.
  destruct K; reflexivity.
Qed.

Lemma nth_map_seq {A} (R : nat -> A) (d : A) (K i : nat) :
  i < K -> nth i (map R (seq 0 K)) d = R i.
Proof.
  intros Hi.
  rewrite (nth_indep _ d (R 0)) by now rewrite length_map, length_seq.
  rewrite (map_nth R (seq 0 K) 0 i), seq_nth by exact Hi. reflexivity.
Qed.

Section ScalarStep.

Variable gv : vec -> list Q -> covariates -> vec.
Variable p : vec.
Variable s : Q.
Variable K : nat.

Lemma scalar_diff_row (i : nat) :
  i < K ->
  nth i (step_times_eye (StepScalar s) K) [] = vscale s (unit_vector K i).
Proof.
  intros Hi. unfold step_times_eye, eye. rewrite map_map.
  now rewrite (@nth_map_seq vec _ [] K i Hi).
Qed.

Lemma fd_rows_one_batch (b : batch) (R : nat -> vec) :
  for_range K
    (fd_row (total_g gv) p (step_times_eye (StepScalar s) K)
            (gv p (fst b) (snd b)) (fst b) (snd b))
    (map R (seq 0 K))
  = ret (map (fun i => fd_increment gv p s K b i (R i)) (seq 0 K)).
Proof.
  unfold for_range.
  rewrite (for_each_pure
             (fun rows i =>
                set_nth i rows
                  ((fun i r =>
                      vadd r (vsub (gv (vadd p (nth i (step_times_eye (StepScalar s) K) []))
                                       (fst b) (snd b))
                                   (gv p (fst b) (snd b))))
                     i (nth i rows []))));
    [|reflexivity].
  f_equal.
  pose proof (fold_set_nth
                (fun i r =>
                   vadd r (vsub (gv (vadd p (nth i (step_times_eye (StepScalar s) K) []))
                                    (fst b) (snd b))
                                (gv p (fst b) (snd b))))
                [] (map R (seq 0 K)) []) as H.
  cbn [length app] in H. rewrite length_map, length_seq in H.
  etransitivity; [exact H|]. rewrite mapi_from_map.
  apply map_ext_in. intros i Hi. apply in_seq in Hi.
  unfold fd_increment. now rewrite scalar_diff_row by lia.
Qed.

Lemma fd_rows_all_batches (l : list batch) :
  forall R,
    for_each l
      (fun b hess_rows =>
         let '(y_bat, x_bat) := b in
         g0_batch <- lift (total_g gv p y_bat x_bat) ;;
         for_range K
           (fd_row (total_g gv) p (step_times_eye (StepScalar s) K)
                   g0_batch y_bat x_bat)
           hess_rows)
      (map R (seq 0 K))
    = ret (map (fun i => fold_left (fun acc b => fd_increment gv p s K b i acc) l (R i))
               (seq 0 K)).
Proof.
  induction l as [|b l IH]; intros R; cbn [for_each fold_left].
  - reflexivity.
  - destruct b as [yb xb]. unfold total_g at 1. rewrite bind_lift_ok.
    pose proof (fd_rows_one_batch (yb, xb) R) as H1. cbn [fst snd] in H1.
    rewrite H1, bind_ret.
    apply (IH (fun i => fd_increment gv p s K (yb, xb) i (R i))).
Qed.

Lemma fd_hessian_scalar (d : DataLoader.t) (B N : nat) :
  N <> 0 ->
  fd_hessian (total_g gv) d p (StepScalar s) B N K
  = if Nat.eqb K 0 then (Raise ValueError, [])
    else (Ok (fd_hessian_spec gv (DataLoader.iter d) p s B N K), []).
Proof.
  intros HN. unfold fd_hessian.
  rewrite (repeat_as_map (vzeros K) K 0), fd_rows_all_batches, bind_ret.
  rewrite vstack_map_seq.
  destruct (Nat.eqb K 0); [reflexivity|]. rewrite bind_lift_ok.
  destruct N as [|n]; [contradiction|].
  cbn [py_div_int]. rewrite bind_lift_ok. unfold ret. do 2 f_equal.
  unfold fd_hessian_spec, div_step, mtimes. rewrite !map_map.
  apply map_ext. intros i. rewrite map_map. reflexivity.
Qed.

End ScalarStep.

(** * Further properties *)

(** ** Edge cases of the batching and of [maxlike] *)

(** X1. A zero [batch_size] makes the constructor of the batches raise
    [ZeroDivisionError]: [maxlike] raises it before training and prints
    nothing, and so does every family builder once the design is built. *)
Theorem zero_batch_size_raises
        (value_and_grad : Model -> vec -> list Q -> covariates -> result (Q * vec))
        (grad : Model -> vec -> list Q -> covariates -> result vec)
        (hessian : Model -> vec -> list Q -> covariates -> result matrix)
        (linalg_inv : matrix -> result matrix)
        (exp log gammaln_lib : Q -> Q)
        (Source Table : Type)
        (design_matrices :
           Source -> bool -> string -> result (list Q * covariates * list string))
        (param_table : vec -> option matrix -> list string -> Table) :
  (forall y x model params0 epochs lr step output,
      maxlike value_and_grad grad hessian linalg_inv y x model params0
              0 epochs lr step output
      = (Raise ZeroDivisionError, [])) /\
  (forall f src kw y_vec x_mat names,
      kw_batch_size kw = 0 ->
      design_matrices src (intercept kw) (drop kw) = Ok (y_vec, x_mat, names) ->
      build value_and_grad grad hessian linalg_inv exp log gammaln_lib
            design_matrices param_table f src kw
      = (Raise ZeroDivisionError, [])).
Proof.
  split.
  - reflexivity.
  - intros f src kw y_vec x_mat names HB Hdm.
    destruct f; cbn [build];
      unfold logit, poisson, zero_inflated_poisson, negative_binomial,
             zero_inflated_negative_binomial, ordinary_least_squares, glm;
      cbv zeta; rewrite Hdm, bind_lift_ok, HB;
      destruct (shape x_mat) as [N K]; reflexivity.
Qed.

Lemma zero_batch_size_raises_witness :
  build sample_value_and_grad sample_grad sample_hessian sample_inv
        sample_exp sample_log (fun x => x) sample_design sample_table
        NegativeBinomial tt
        (mk_kwargs true "first" None true 0 3 (1 # 2)%Q (1 # 10000)%Q)
  = (Raise ZeroDivisionError, []).
Proof.
  apply (proj2 (zero_batch_size_raises
                  sample_value_and_grad sample_grad sample_hessian sample_inv
                  sample_exp sample_log (fun x => x) unit unit
                  sample_design sample_table)
               NegativeBinomial tt _ sample_labels sample_dense ["x1"%string]).
  - reflexivity.
  - reflexivity.
Defined.

Lemma slice_length_clamped {A} (l : list A) (lo hi : nat) :
  length (slice l lo hi) = Nat.min (hi - lo) (length l - lo).
Proof.
  unfold slice. now rewrite length_firstn, length_skipn.
Qed.

(** X2. The batching does not check that labels and covariates have the
    same number of records: the number of batches follows the labels alone,
    every label batch has [batch_size] records, and the covariate batch [k]
    holds whatever rows exist in its window, [min B (M - k*B)] of them for
    [M] covariate rows; it is always dense. *)
Theorem DataLoader_unchecked_shapes (y : list Q) (x : covariates) (B k : nat) :
  0 < B ->
  k < length y / B ->
  exists d by_ bx,
    DataLoader.init y x B = Ok d /\
    length (DataLoader.iter d) = length y / B /\
    nth_error (DataLoader.iter d) k = Some (by_, bx) /\
    length by_ = B /\
    length (dense_rows bx) = Nat.min B (length (dense_rows x) - k * B) /\
    issparse bx = false.
Proof.
  intros HB Hk.
  pose proof (init_ok y x B HB) as Hd.
  eexists. eexists. eexists. split; [exact Hd|].
  rewrite (iter_ordered _ _ _ _ Hd). unfold ordered_batches.
  rewrite length_map, length_seq. split; [reflexivity|].
  rewrite nth_error_map, nth_error_seq.
  apply Nat.ltb_lt in Hk. rewrite Hk. cbn [option_map Nat.add].
  split; [reflexivity|]. apply Nat.ltb_lt in Hk.
  pose proof (Nat.div_mod_eq (length y) B) as Hdm.
  pose proof (Nat.mod_upper_bound (length y) B ltac:(lia)) as Hm.
  assert (Hle : k * B + B <= length y) by nia.
  split; [|split].
  - rewrite slice_length_clamped. lia.
  - unfold dense_rows at 1. cbn [toarray]. rewrite slice_length_clamped.
    f_equal. lia.
  - reflexivity.
Qed.

Lemma DataLoader_unchecked_shapes_witness :
  exists d by_ bx,
    DataLoader.init sample_labels (Dense 1 [[1%Q]; [0%Q]; [2%Q]]) 2 = Ok d /\
    length (DataLoader.iter d) = 2 /\
    nth_error (DataLoader.iter d) 1 = Some (by_, bx) /\
    length by_ = 2 /\
    length (dense_rows bx) = 1 /\
    issparse bx = false.
Proof.
  apply (DataLoader_unchecked_shapes sample_labels (Dense 1 [[1%Q]; [0%Q]; [2%Q]]) 2 1).
  - lia.
  - cbn. lia.
Defined.

(** X3. With [epochs = 0] nothing is trained and nothing is printed: for
    every positive batch size, also one larger than the dataset, [maxlike]
    with [output='beta'] returns the initial parameters as they are. *)
Theorem zero_epochs_returns_initial_parameters
        (value_and_grad : Model -> vec -> list Q -> covariates -> result (Q * vec))
        (grad : Model -> vec -> list Q -> covariates -> result vec)
        (hessian : Model -> vec -> list Q -> covariates -> result matrix)
        (linalg_inv : matrix -> result matrix)
        (y : list Q) (x : covariates) (model : Model) (params0 : vec)
        (B : nat) (lr step : Q) :
  0 < B ->
  maxlike value_and_grad grad hessian linalg_inv y x model params0
          B 0 lr step (Some "beta"%string)
  = (Ok (params0, None), []).
Proof.
  intros HB. unfold maxlike. rewrite (init_ok y x B HB), bind_lift_ok.
  reflexivity.
Qed.

Lemma zero_epochs_returns_initial_parameters_witness :
  maxlike sample_value_and_grad sample_grad failing_hessian sample_inv
          sample_labels sample_dense sample_model [(3 # 4)%Q] 6 0
          (1 # 2)%Q (1 # 10000)%Q (Some "beta"%string)
  = (Ok ([(3 # 4)%Q], None), []).
Proof.
  apply (zero_epochs_returns_initial_parameters
           sample_value_and_grad sample_grad failing_hessian sample_inv
           sample_labels sample_dense sample_model [(3 # 4)%Q] 6).
  lia.
Defined.

(** X4. On an empty dataset with [epochs = 0] and no [output='beta'], the
    division [batch_size/N] raises inside the [try] block and is caught and
    reported as a Hessian failure; the handler then fails too, and its
    error is the outcome of [maxlike] after the two diagnostic lines,
    whatever the derivative routines are: with at least one parameter the
    same division raises [ZeroDivisionError] again, and with an empty
    parameter vector [np.vstack] of no rows raises [ValueError] before the
    division is reached. *)
Theorem empty_dataset_fails_in_the_handler
        (value_and_grad : Model -> vec -> list Q -> covariates -> result (Q * vec))
        (grad : Model -> vec -> list Q -> covariates -> result vec)
        (hessian : Model -> vec -> list Q -> covariates -> result matrix)
        (linalg_inv : matrix -> result matrix)
        (x : covariates) (model : Model) (params0 : vec)
        (B : nat) (lr step : Q) (output : option string) :
  0 < B ->
  output_is_beta output = false ->
  maxlike value_and_grad grad hessian linalg_inv [] x model params0
          B 0 lr step output
  = (Raise (match params0 with
            | [] => ValueError
            | _ :: _ => ZeroDivisionError
            end),
     [ErrorLine ZeroDivisionError; FallbackLine]).
Proof.
  intros HB Hbeta. unfold maxlike.
  rewrite (init_ok [] x B HB), bind_lift_ok.
  unfold train, for_range. cbn [seq for_each]. rewrite bind_ret, Hbeta.
  unfold hessian_block, exact_hessian, fd_hessian, DataLoader.iter.
  cbn [DataLoader.num_batches length]. rewrite Nat.Div0.div_0_l.
  destruct params0 as [|q params0]; reflexivity.
Qed.

Lemma empty_dataset_fails_in_the_handler_witness :
  maxlike sample_value_and_grad sample_grad sample_hessian sample_inv
          [] (Dense 1 []) sample_model [0%Q] 4 0 (1 # 2)%Q (1 # 10000)%Q None
  = (Raise ZeroDivisionError, [ErrorLine ZeroDivisionError; FallbackLine])
  /\
  maxlike sample_value_and_grad sample_grad sample_hessian sample_inv
          [] (Dense 0 []) sample_model [] 4 0 (1 # 2)%Q (1 # 10000)%Q None
  = (Raise ValueError, [ErrorLine ZeroDivisionError; FallbackLine]).
Proof.
  split.
  - apply (empty_dataset_fails_in_the_handler
             sample_value_and_grad sample_grad sample_hessian sample_inv
             (Dense 1 []) sample_model [0%Q] 4).
    + lia.
    + reflexivity.
  - apply (empty_dataset_fails_in_the_handler
             sample_value_and_grad sample_grad sample_hessian sample_inv
             (Dense 0 []) sample_model [] 4).
    + lia.
    + reflexivity.
Defined.

Lemma mzeros_times_shape (K : nat) (c : Q) :
  length (mtimes (mzeros K K) c) = K /\
  Forall (fun row => length row = K /\ Forall (fun e => (e == 0)%Q) row)
         (mtimes (mzeros K K) c).
Proof.
  unfold mtimes, mzeros, vzeros. split.
  - now rewrite length_map, repeat_length.
  - apply Forall_forall. intros row Hrow.
    apply in_map_iff in Hrow. destruct Hrow as [r [<- Hr]].
    apply repeat_spec in Hr. subst r. split.
    + now rewrite length_map, repeat_length.
    + apply Forall_forall. intros e He.
      apply in_map_iff in He. destruct He as [z [<- Hz]].
      apply repeat_spec in Hz. subst z. ring.
Qed.

(** X5. With [epochs = 0] and a batch size larger than a non-empty
    dataset, the exact Hessian loop sees no batch and does not fail: the
    matrix handed to [np.linalg.inv] is the [K] by [K] zero matrix, nothing
    is printed and the fallback is not used. *)
Theorem no_batch_hessian_is_zero
        (value_and_grad : Model -> vec -> list Q -> covariates -> result (Q * vec))
        (grad : Model -> vec -> list Q -> covariates -> result vec)
        (hessian : Model -> vec -> list Q -> covariates -> result matrix)
        (linalg_inv : matrix -> result matrix)
        (y : list Q) (x : covariates) (model : Model) (params0 : vec)
        (B : nat) (lr step : Q) (output : option string) :
  length y < B ->
  length y <> 0 ->
  output_is_beta output = false ->
  let K := length params0 in
  let Z := mtimes (mzeros K K) (Qnat B / Qnat (length y))%Q in
  maxlike value_and_grad grad hessian linalg_inv y x model params0
          B 0 lr step output
  = (match linalg_inv Z with
     | Ok Hi => Ok (params0, Some (mdiv Hi (Qnat (length y))))
     | Raise e => Raise e
     end, []) /\
  length Z = K /\
  Forall (fun row => length row = K /\ Forall (fun e => (e == 0)%Q) row) Z.
Proof.
  intros HB HN Hbeta. cbv zeta. split; [|apply mzeros_times_shape].
  assert (Hpos : 0 < B) by lia.
  pose proof (init_ok y x B Hpos) as Hd.
  pose proof (iter_empty _ _ _ _ Hd HB) as Hnil.
  rewrite (maxlike_trained value_and_grad grad hessian linalg_inv y x model
             params0 B 0 lr step output _ params0 (StepScalar step) []
             Hd eq_refl Hbeta).
  assert (He : exact_hessian (hessian model)
                 (DataLoader.mk y x B (length y) (length y / B) (issparse x))
                 params0 B (length y) (length params0)
               = (Ok (mtimes (mzeros (length params0) (length params0))
                             (Qnat B / Qnat (length y))%Q), [])).
  { unfold exact_hessian. rewrite Hnil. cbn [for_each]. rewrite bind_ret.
    destruct (length y); [contradiction | reflexivity]. }
  rewrite (hessian_block_exact (grad model) (hessian model) _ params0
             (StepScalar step) B (length y) (length params0) _ (f_equal fst He)).
  cbn [fst snd]. reflexivity.
Qed.

Lemma no_batch_hessian_is_zero_witness :
  maxlike sample_value_and_grad sample_grad sample_hessian sample_inv
          sample_labels sample_dense sample_model [0%Q] 6 0
          (1 # 2)%Q (1 # 10000)%Q None
  = (Raise LinAlgError, []).
Proof.
  destruct (no_batch_hessian_is_zero
              sample_value_and_grad sample_grad sample_hessian sample_inv
              sample_labels sample_dense sample_model [0%Q] 6
              (1 # 2)%Q (1 # 10000)%Q None) as [H _].
  - cbn. lia.
  - discriminate.
  - reflexivity.
  - rewrite H. reflexivity.
Defined.

(** ** Closed forms of the finite-difference handler *)

Section HandlerRows.

Variable gv : vec -> list Q -> covariates -> vec.
Variable p : vec.
Variable diff : matrix.
Variable K : nat.

Lemma handler_rows_one_batch (b : batch) (R : nat -> vec) :
  for_range K
    (fd_row (total_g gv) p diff (gv p (fst b) (snd b)) (fst b) (snd b))
    (map R (seq 0 K))
  = ret (map (fun i =>
                vadd (R i) (vsub (gv (vadd p (nth i diff [])) (fst b) (snd b))
                                 (gv p (fst b) (snd b))))
             (seq 0 K)).
Proof.
  unfold for_range.
  rewrite (for_each_pure
             (fun rows i =>
                set_nth i rows
                  ((fun i r =>
                      vadd r (vsub (gv (vadd p (nth i diff [])) (fst b) (snd b))
                                   (gv p (fst b) (snd b))))
                     i (nth i rows []))));
    [|reflexivity].
  f_equal.
  pose proof (fold_set_nth
                (fun i r =>
                   vadd r (vsub (gv (vadd p (nth i diff [])) (fst b) (snd b))
                                (gv p (fst b) (snd b))))
                [] (map R (seq 0 K)) []) as H.
  cbn [length app] in H. rewrite length_map, length_seq in H.
  etransitivity; [exact H|]. apply mapi_from_map.
Qed.

Lemma handler_rows_all_batches (l : list batch) :
  forall R,
    for_each l
      (fun b hess_rows =>
         let '(y_bat, x_bat) := b in
         g0_batch <- lift (total_g gv p y_bat x_bat) ;;
         for_range K (fd_row (total_g gv) p diff g0_batch y_bat x_bat) hess_rows)
      (map R (seq 0 K))
    = ret (map (fun i =>
                  fold_left
                    (fun acc b =>
                       vadd acc (vsub (gv (vadd p (nth i diff [])) (fst b) (snd b))
                                      (gv p (fst b) (snd b))))
                    l (R i))
               (seq 0 K)).
Proof.
  induction l as [|b l IH]; intros R; cbn [for_each fold_left].
  - reflexivity.
  - destruct b as [yb xb]. unfold total_g at 1. rewrite bind_lift_ok.
    pose proof (handler_rows_one_batch (yb, xb) R) as H1. cbn [fst snd] in H1.
    rewrite H1, bind_ret.
    apply (IH (fun i => vadd (R i) (vsub (gv (vadd p (nth i diff [])) yb xb)
                                         (gv p yb xb)))).
Qed.

End HandlerRows.

Lemma vector_diff_row (v : vec) (K i : nat) :
  i < K ->
  nth i (step_times_eye (StepVector v) K) [] = map2 Qmult v (unit_vector K i).
Proof.
  intros Hi. unfold step_times_eye, eye. rewrite map_map.
  now rewrite (@nth_map_seq vec _ [] K i Hi).
Qed.

(** X6. When the gradient routine does not raise and [step] is bound to a
    vector [v], the handler returns, for a non-empty dataset and at least
    one parameter, the matrix whose row [i] sums over the batches the
    gradient differences for the perturbation of axis [i] by [v[i]], scales
    them by [batch_size/N] and divides entry [j] by [v[j]]; with no
    parameter it raises [ValueError], [np.vstack] having no row to stack. *)
Theorem fd_hessian_vector_closed_form
        (gv : vec -> list Q -> covariates -> vec) (d : DataLoader.t)
        (p v : vec) (B N K : nat) :
  N <> 0 ->
  fd_hessian (total_g gv) d p (StepVector v) B N K
  = if Nat.eqb K 0 then (Raise ValueError, [])
    else (Ok (fd_hessian_rebound gv (DataLoader.iter d) p v B N K), []).
Proof.
  intros HN. unfold fd_hessian.
  rewrite (repeat_as_map (vzeros K) K 0), handler_rows_all_batches, bind_ret.
  rewrite vstack_map_seq.
  destruct (Nat.eqb K 0); [reflexivity|]. rewrite bind_lift_ok.
  destruct N as [|n]; [contradiction|].
  cbn [py_div_int]. rewrite bind_lift_ok. unfold ret. do 2 f_equal.
  unfold fd_hessian_rebound, div_step, mtimes. rewrite !map_map.
  apply map_ext_in. intros i Hi. apply in_seq in Hi.
  now rewrite vector_diff_row by lia.
Qed.

Lemma fd_hessian_vector_closed_form_witness :
  fd_hessian (total_g sample_gradient)
             (DataLoader.mk one_label one_row 1 1 1 false)
             [(1 # 2)%Q] (StepVector [(1 # 2)%Q]) 1 1 1
  = (Ok (fd_hessian_rebound sample_gradient
           (DataLoader.iter (DataLoader.mk one_label one_row 1 1 1 false))
           [(1 # 2)%Q] [(1 # 2)%Q] 1 1 1), []).
Proof.
  apply (fd_hessian_vector_closed_form sample_gradient
           (DataLoader.mk one_label one_row 1 1 1 false)
           [(1 # 2)%Q] [(1 # 2)%Q] 1 1 1).
  discriminate.
Defined.

Lemma fd_hessian_ext (g g' : vec -> list Q -> covariates -> result vec)
      (d : DataLoader.t) (p : vec) (st : step_val) (B N K : nat) :
  (forall q yb xb, g q yb xb = g' q yb xb) ->
  fd_hessian g d p st B N K = fd_hessian g' d p st B N K.
Proof.
  intros Hext. unfold fd_hessian.
  rewrite (for_each_ext
             (fun b hess_rows =>
                let '(y_bat, x_bat) := b in
                g0_batch <- lift (g p y_bat x_bat) ;;
                for_range K (fd_row g p (step_times_eye st K) g0_batch y_bat x_bat)
                          hess_rows)
             (fun b hess_rows =>
                let '(y_bat, x_bat) := b in
                g0_batch <- lift (g' p y_bat x_bat) ;;
                for_range K (fd_row g' p (step_times_eye st K) g0_batch y_bat x_bat)
                          hess_rows));
    [reflexivity|].
  intros [yb xb] rows. rewrite Hext.
  destruct (g' p yb xb) as [g0|e]; [|reflexivity].
  rewrite !bind_lift_ok. unfold for_range. apply for_each_ext.
  intros i rows'. unfold fd_row. now rewrite Hext.
Qed.

(** X7. With [epochs = 0] the name [step] is still the configured scalar
    when the handler runs: if the exact Hessian raises and the gradient
    routine does not, [maxlike] inverts the finite-difference Hessian taken
    at the initial parameters with the configured [step], after the two
    diagnostic lines (with an empty parameter vector the handler raises
    [ValueError] instead, [np.vstack] having no row to stack). *)
Theorem zero_epochs_fallback_uses_configured_step
        (value_and_grad : Model -> vec -> list Q -> covariates -> result (Q * vec))
        (grad : Model -> vec -> list Q -> covariates -> result vec)
        (hessian : Model -> vec -> list Q -> covariates -> result matrix)
        (linalg_inv : matrix -> result matrix)
        (gv : vec -> list Q -> covariates -> vec)
        (y : list Q) (x : covariates) (model : Model) (params0 : vec)
        (B : nat) (lr step : Q) (output : option string)
        (d : DataLoader.t) (e : exn) :
  DataLoader.init y x B = Ok d ->
  length y <> 0 ->
  output_is_beta output = false ->
  (forall q yb xb, grad model q yb xb = Ok (gv q yb xb)) ->
  fst (exact_hessian (hessian model) d params0 B (length y) (length params0))
  = Raise e ->
  maxlike value_and_grad grad hessian linalg_inv y x model params0
          B 0 lr step output
  = (if Nat.eqb (length params0) 0 then Raise ValueError
     else
       match linalg_inv (fd_hessian_spec gv (DataLoader.iter d) params0 step
                                         B (length y) (length params0)) with
       | Ok Hi => Ok (params0, Some (mdiv Hi (Qnat (length y))))
       | Raise e' => Raise e'
       end,
     [ErrorLine e; FallbackLine]).
Proof.
  intros Hd HN Hbeta Hg He.
  rewrite (maxlike_trained value_and_grad grad hessian linalg_inv y x model
             params0 B 0 lr step output d params0 (StepScalar step) []
             Hd eq_refl Hbeta).
  rewrite (hessian_block_fallback (grad model) (hessian model) d params0
             (StepScalar step) B (length y) (length params0) e He).
  rewrite (fd_hessian_ext (grad model) (total_g gv) d params0 (StepScalar step)
             B (length y) (length params0) Hg).
  rewrite (fd_hessian_scalar gv params0 step (length params0) d B (length y) HN).
  destruct (Nat.eqb (length params0) 0); reflexivity.
Qed.

Lemma zero_epochs_fallback_uses_configured_step_witness :
  maxlike sample_value_and_grad sample_grad failing_hessian sample_inv
          one_label one_row sample_model [0%Q] 1 0 (1 # 2)%Q (1 # 10000)%Q None
  = (match sample_inv
             (fd_hessian_spec sample_gradient
                (DataLoader.iter (DataLoader.mk one_label one_row 1 1 1 false))
                [0%Q] (1 # 10000)%Q 1 1 1) with
     | Ok Hi => Ok ([0%Q], Some (mdiv Hi (Qnat 1)))
     | Raise e' => Raise e'
     end,
     [ErrorLine (OtherError "second derivative unsupported"); FallbackLine]).
Proof.
  apply (zero_epochs_fallback_uses_configured_step
           sample_value_and_grad sample_grad failing_hessian sample_inv
           sample_gradient one_label one_row sample_model [0%Q] 1
           (1 # 2)%Q (1 # 10000)%Q None
           (DataLoader.mk one_label one_row 1 1 1 false)
           (OtherError "second derivative unsupported")).
  - reflexivity.
  - discriminate.
  - reflexivity.
  - reflexivity.
  - reflexivity.
Defined.

(** ** What the training loop prints *)

Section TrainingOutput.

Variable lossv : vec -> list Q -> covariates -> Q.
Variable gradv : vec -> list Q -> covariates -> vec.
Variable d : DataLoader.t.
Variable lr : Q.

Lemma train_batches_loss (l : list batch) :
  forall p st al ab,
    exists st',
      for_each l (train_batch (total_fg lossv gradv) lr) (p, st, al, ab)
      = ret (gd_pass lr gradv l p, st', pass_loss lr lossv gradv l p al,
             ab + length l).
Proof.
  induction l as [|b l IH]; intros p st al ab.
  - exists st. cbn. now rewrite Nat.add_0_r.
  - cbn [for_each]. rewrite train_batch_total, bind_ret.
    destruct (IH (gd_update lr gradv p b)
                 (StepVector (vscale (- lr)%Q (gradv p (fst b) (snd b))))
                 (al + lossv p (fst b) (snd b))%Q (ab + 1)) as [st' H].
    exists st'. rewrite H. unfold gd_pass. cbn [fold_left length pass_loss].
    now replace (ab + 1 + length l) with (ab + S (length l)) by lia.
Qed.

Lemma train_epoch_line (ep : nat) (p : vec) (st : step_val) :
  DataLoader.iter d <> [] ->
  exists st',
    train_epoch (total_fg lossv gradv) d lr ep (p, st)
    = (Ok (gd_pass lr gradv (DataLoader.iter d) p, st'),
       [EpochLine ep
          (pass_loss lr lossv gradv (DataLoader.iter d) p 0
           / Qnat (length (DataLoader.iter d)))%Q]).
Proof.
  intros Hne. unfold train_epoch.
  destruct (train_batches_loss (DataLoader.iter d) p st 0%Q 0) as [st' H].
  rewrite H, bind_ret.
  destruct (DataLoader.iter d) as [|b l]; [contradiction|].
  cbn [length Nat.add py_div_count]. rewrite bind_lift_ok.
  exists st'. reflexivity.
Qed.

Lemma train_epochs_lines (epochs : nat) :
  DataLoader.iter d <> [] ->
  forall start p st,
    exists st',
      for_each (seq start epochs) (train_epoch (total_fg lossv gradv) d lr) (p, st)
      = (Ok (gd_epochs lr gradv (DataLoader.iter d) epochs p, st'),
         train_lines lr lossv gradv (DataLoader.iter d) start epochs p).
Proof.
  intros Hne. induction epochs as [|n IH]; intros start p st.
  - exists st. reflexivity.
  - cbn [seq for_each].
    destruct (train_epoch_line start p st Hne) as [st1 H1].
    destruct (IH (S start) (gd_pass lr gradv (DataLoader.iter d) p) st1)
      as [st' H2].
    rewrite H1, bind_ok, H2. cbn [fst snd app gd_epochs train_lines].
    exists st'. reflexivity.
Qed.

End TrainingOutput.

(** X8. When there is at least one batch and the value-and-gradient routine
    does not raise, the line of epoch [k] reports the sum of the batch
    losses of that pass, each taken at the parameters current when its
    batch is visited (before the update), divided by the number of
    batches. *)
Theorem training_reports_mean_losses
        (lossv : vec -> list Q -> covariates -> Q)
        (gradv : vec -> list Q -> covariates -> vec)
        (y : list Q) (x : covariates) (B epochs : nat) (lr step : Q)
        (params0 : vec) :
  0 < B -> B <= length y ->
  exists d st,
    DataLoader.init y x B = Ok d /\
    train (total_fg lossv gradv) d lr epochs params0 step
    = (Ok (gd_epochs lr gradv (DataLoader.iter d) epochs params0, st),
       train_lines lr lossv gradv (DataLoader.iter d) 0 epochs params0) /\
    length (DataLoader.iter d) = length y / B.
Proof.
  intros Hpos HB.
  pose proof (init_ok y x B Hpos) as Hd.
  pose proof (iter_nonempty _ _ _ _ Hd HB) as Hne.
  destruct (train_epochs_lines lossv gradv _ lr epochs Hne 0 params0 (StepScalar step))
    as [st Ht].
  eexists. exists st. split; [exact Hd|]. split; [exact Ht|].
  unfold DataLoader.iter. now rewrite iter_loop_length.
Qed.

Lemma training_reports_mean_losses_witness :
  exists d st,
    DataLoader.init sample_labels sample_dense 2 = Ok d /\
    train (total_fg sample_model sample_gradient) d (1 # 2)%Q 2 [0%Q] (1 # 10000)%Q
    = (Ok (gd_epochs (1 # 2)%Q sample_gradient (DataLoader.iter d) 2 [0%Q], st),
       train_lines (1 # 2)%Q sample_model sample_gradient (DataLoader.iter d)
                   0 2 [0%Q]) /\
    length (DataLoader.iter d) = length sample_labels / 2.
Proof.
  apply (training_reports_mean_losses sample_model sample_gradient
           sample_labels sample_dense 2 2 (1 # 2)%Q (1 # 10000)%Q [0%Q]).
  - lia.
  - cbn. lia.
Defined.

Lemma train_epoch_raise_silent
      (fg : vec -> list Q -> covariates -> result (Q * vec)) (d : DataLoader.t)
      (lr : Q) (ep : nat) (s : vec * step_val) (e : exn) (out : list line) :
  train_epoch fg d lr ep s = (Raise e, out) -> out = [].
Proof.
  destruct s as [p st]. unfold train_epoch.
  pose proof (for_each_silent _ (DataLoader.iter d) (train_batch_silent fg lr)
                (p, st, 0%Q, 0)) as Hs.
  destruct (for_each (DataLoader.iter d) (train_batch fg lr) (p, st, 0%Q, 0))
    as [[[[[p1 st1] al1] ab1]|e1] o1]; cbn [snd] in Hs; subst o1.
  - rewrite bind_ok. cbn [fst snd app].
    destruct ab1 as [|n]; cbn.
    + intros H. now inversion H.
    + discriminate.
  - intros H. now inversion H.
Qed.

Lemma train_raise_split
      (fg : vec -> list Q -> covariates -> result (Q * vec)) (d : DataLoader.t)
      (lr : Q) (n : nat) :
  forall start s e out,
    for_each (seq start n) (train_epoch fg d lr) s = (Raise e, out) ->
    exists k s',
      k < n /\
      for_each (seq start k) (train_epoch fg d lr) s = (Ok s', out) /\
      train_epoch fg d lr (start + k) s' = (Raise e, []) /\
      Forall2 is_epoch_line (seq start k) out.
Proof.
  induction n as [|n IH]; intros start s e out H.
  - discriminate.
  - cbn [seq for_each] in H.
    destruct (train_epoch fg d lr start s) as [[s1|e1] o1] eqn:E.
    + destruct s as [p st], s1 as [p1 st1].
      destruct (train_epoch_completed fg d lr start p st p1 st1 o1 E)
        as [_ [avg Ho1]].
      rewrite bind_ok in H.
      destruct (for_each (seq (S start) n) (train_epoch fg d lr) (p1, st1))
        as [r o2] eqn:E2. cbn [fst snd] in H. inversion H; subst.
      destruct (IH _ _ _ _ E2) as [k [s' [Hk [Hok [Hraise HF]]]]].
      exists (S k), s'. split; [lia|]. split; [|split].
      * cbn [seq for_each]. rewrite E, bind_ok, Hok. reflexivity.
      * replace (start + S k) with (S start + k) by lia. exact Hraise.
      * cbn [seq app]. constructor; [now exists avg | exact HF].
    + cbn in H. inversion H; subst.
      pose proof (train_epoch_raise_silent fg d lr start s _ _ E) as Hnil.
      subst. exists 0, s. split; [lia|]. split; [reflexivity|].
      split; [now rewrite Nat.add_0_r | constructor].
Qed.

(** X9. When the training loop raises, the epochs before the failing one
    were completed and are exactly what it has printed: for some [k] below
    [epochs], running [k] epochs returns with that very output, which has
    one line per completed epoch numbered [0 .. k-1], and epoch [k] then
    raises the error from the parameters so reached, printing nothing. *)
Theorem training_error_keeps_completed_epochs
        (fg : vec -> list Q -> covariates -> result (Q * vec)) (d : DataLoader.t)
        (lr : Q) (epochs : nat) (params0 : vec) (step : Q)
        (e : exn) (out : list line) :
  train fg d lr epochs params0 step = (Raise e, out) ->
  exists k p st,
    k < epochs /\
    train fg d lr k params0 step = (Ok (p, st), out) /\
    train_epoch fg d lr k (p, st) = (Raise e, []) /\
    length out = k /\
    Forall2 is_epoch_line (seq 0 k) out.
Proof.
  unfold train, for_range. intros H.
  destruct (train_raise_split fg d lr epochs 0 _ e out H)
    as [k [[p st] [Hk [Hok [Hraise HF]]]]].
  exists k, p, st. split; [exact Hk|]. split; [exact Hok|].
  split; [exact Hraise|]. split; [|exact HF].
  apply Forall2_length in HF. now rewrite length_seq in HF.
Qed.

Lemma training_error_keeps_completed_epochs_witness :
  exists p st,
    train fragile_fg (DataLoader.mk one_label one_row 1 1 1 false)
          (1 # 2)%Q 1 [0%Q] (1 # 10000)%Q
    = (Ok (p, st), [EpochLine 0 (0 # 3)]) /\
    train_epoch fragile_fg (DataLoader.mk one_label one_row 1 1 1 false)
                (1 # 2)%Q 1 (p, st)
    = (Raise (OtherError "loss is not finite"), []).
Proof.
  destruct (training_error_keeps_completed_epochs
              fragile_fg (DataLoader.mk one_label one_row 1 1 1 false)
              (1 # 2)%Q 3 [0%Q] (1 # 10000)%Q
              (OtherError "loss is not finite") [EpochLine 0 (0 # 3)])
    as [k [p [st [_ [Hok [Hraise [Hlen _]]]]]]].
  - vm_compute; reflexivity.
  - cbn [length] in Hlen. subst k. exists p, st. split; [exact Hok | exact Hraise].
Defined.

(** ** What the builders return *)

Lemma maxlike_result_shape
      (value_and_grad : Model -> vec -> list Q -> covariates -> result (Q * vec))
      (grad : Model -> vec -> list Q -> covariates -> result vec)
      (hessian : Model -> vec -> list Q -> covariates -> result matrix)
      (linalg_inv : matrix -> result matrix)
      (y : list Q) (x : covariates) (model : Model) (params0 : vec)
      (B epochs : nat) (lr step : Q) (output : option string)
      (p : vec) (sg : option matrix) (out : list line) :
  maxlike value_and_grad grad hessian linalg_inv y x model params0 B epochs
          lr step output = (Ok (p, sg), out) ->
  if output_is_beta output then sg = None else exists m, sg = Some m.
Proof.
  unfold maxlike. destruct (DataLoader.init y x B) as [d|e]; [|discriminate].
  rewrite bind_lift_ok.
  destruct (train (value_and_grad model) d lr epochs params0 step)
    as [[[q st]|e] o1]; [|discriminate].
  rewrite bind_ok. destruct (output_is_beta output).
  - cbn. intros H. now inversion H.
  - destruct (hessian_block (grad model) (hessian model) d q st B (length y)
                            (length params0)) as [[H|e] o2]; [|discriminate].
    rewrite bind_ok. cbn [fst snd].
    destruct (linalg_inv H) as [Hi|e]; [|discriminate].
    cbn. intros E. inversion E. now eexists.
Qed.

Section BuilderResults.

Variable value_and_grad : Model -> vec -> list Q -> covariates -> result (Q * vec).
Variable grad : Model -> vec -> list Q -> covariates -> result vec.
Variable hessian : Model -> vec -> list Q -> covariates -> result matrix.
Variable linalg_inv : matrix -> result matrix.
Variables exp log gammaln_lib : Q -> Q.
Variable Source : Type.
Variable Table : Type.
Variable design_matrices :
  Source -> bool -> string -> result (list Q * covariates * list string).
Variable param_table : vec -> option matrix -> list string -> Table.

Lemma glm_design_error (src : Source) (extra : option (list string))
      (link : Q -> Q) (loss : loss_type extra) (kw : kwargs) (e : exn) :
  design_matrices src (intercept kw) (drop kw) = Raise e ->
  glm value_and_grad grad hessian linalg_inv design_matrices param_table
      src extra link loss kw
  = (Raise e, []).
Proof.
  intros Hdm. unfold glm. now rewrite Hdm.
Qed.

Lemma glm_result_shape (src : Source) (extra : option (list string))
      (link : Q -> Q) (loss : loss_type extra) (kw : kwargs)
      (r : glm_result Table) (out : list line) :
  glm value_and_grad grad hessian linalg_inv design_matrices param_table
      src extra link loss kw
  = (Ok r, out) ->
  exists y_vec x_mat names,
    design_matrices src (intercept kw) (drop kw) = Ok (y_vec, x_mat, names) /\
    match r with
    | RetBeta _ beta => output_is_beta (output kw) = true
    | RetTable tbl =>
        output_is_beta (output kw) = false /\ table kw = true /\
        exists beta m,
          tbl = param_table beta (Some m)
                  (match extra with Some l => l | None => [] end ++ names)
    | RetPair _ beta sigma =>
        output_is_beta (output kw) = false /\ table kw = false /\
        exists m, sigma = Some m
    end.
Proof.
  unfold glm.
  destruct (design_matrices src (intercept kw) (drop kw)) as [[[y_vec x_mat] names]|e];
    [|discriminate].
  rewrite bind_lift_ok. destruct (shape x_mat) as [N K].
  intros H. exists y_vec, x_mat, names. split; [reflexivity|].
  destruct extra as [l|].
  - destruct (maxlike value_and_grad grad hessian linalg_inv y_vec x_mat
                      (glm_model K link loss) (vzeros (length l + K))
                      (kw_batch_size kw) (kw_epochs kw) (kw_learning_rate kw)
                      (kw_step kw) (output kw)) as [[[beta sg]|e] o1] eqn:Hm;
      [|discriminate].
    apply maxlike_result_shape in Hm. rewrite bind_ok in H.
    destruct (output_is_beta (output kw)).
    + cbn in H. inversion H; subst. reflexivity.
    + destruct Hm as [m ->]. destruct (table kw).
      * cbn in H. inversion H; subst. repeat split. now exists beta, m.
      * cbn in H. inversion H; subst. repeat split. now exists m.
  - destruct (maxlike value_and_grad grad hessian linalg_inv y_vec x_mat
                      (glm_model K link (fun _ yh y0 => loss yh y0))
                      (vzeros (length (@nil string) + K))
                      (kw_batch_size kw) (kw_epochs kw) (kw_learning_rate kw)
                      (kw_step kw) (output kw)) as [[[beta sg]|e] o1] eqn:Hm;
      [|discriminate].
    apply maxlike_result_shape in Hm. rewrite bind_ok in H.
    destruct (output_is_beta (output kw)).
    + cbn in H. inversion H; subst. reflexivity.
    + destruct Hm as [m ->]. destruct (table kw).
      * cbn in H. inversion H; subst. repeat split. now exists beta, m.
      * cbn in H. inversion H; subst. repeat split. now exists m.
Qed.

End BuilderResults.

(** X10. A failure of [design_matrices] is the outcome of [glm] and of
    every family builder: the error is raised as it is, nothing is printed
    and the optimiser is not reached. *)
Theorem design_error_propagates
        (value_and_grad : Model -> vec -> list Q -> covariates -> result (Q * vec))
        (grad : Model -> vec -> list Q -> covariates -> result vec)
        (hessian : Model -> vec -> list Q -> covariates -> result matrix)
        (linalg_inv : matrix -> result matrix)
        (exp log gammaln_lib : Q -> Q)
        (Source Table : Type)
        (design_matrices :
           Source -> bool -> string -> result (list Q * covariates * list string))
        (param_table : vec -> option matrix -> list string -> Table)
        (src : Source) (kw : kwargs) (e : exn) :
  design_matrices src (intercept kw) (drop kw) = Raise e ->
  (forall extra link loss,
      glm value_and_grad grad hessian linalg_inv design_matrices param_table
          src extra link loss kw
      = (Raise e, [])) /\
  (forall f,
      build value_and_grad grad hessian linalg_inv exp log gammaln_lib
            design_matrices param_table f src kw
      = (Raise e, [])).
Proof.
  intros Hdm. split.
  - intros extra link loss. now apply glm_design_error.
  - intros f. destruct f; cbn [build];
      unfold logit, poisson, zero_inflated_poisson, negative_binomial,
             zero_inflated_negative_binomial, ordinary_least_squares;
      cbv zeta; now apply glm_design_error.
Qed.

Lemma design_error_propagates_witness :
  build sample_value_and_grad sample_grad sample_hessian sample_inv
        sample_exp sample_log (fun x => x) failing_design sample_table
        OrdinaryLeastSquares tt default_kwargs
  = (Raise (OtherError "no such column"), []).
Proof.
  apply (proj2 (design_error_propagates
                  sample_value_and_grad sample_grad sample_hessian sample_inv
                  sample_exp sample_log (fun x => x) unit unit
                  failing_design sample_table tt default_kwargs
                  (OtherError "no such column") eq_refl)).
Defined.

(** X11. Whatever a family builder returns follows the [output] and
    [table] options: the bare parameter vector only with [output='beta'];
    otherwise a table when [table] is set, built from a covariance that is
    present and from the extra parameter names followed by the design
    column names; otherwise the pair of the parameters and a covariance
    that is present. *)
Theorem builder_result_follows_options
        (value_and_grad : Model -> vec -> list Q -> covariates -> result (Q * vec))
        (grad : Model -> vec -> list Q -> covariates -> result vec)
        (hessian : Model -> vec -> list Q -> covariates -> result matrix)
        (linalg_inv : matrix -> result matrix)
        (exp log gammaln_lib : Q -> Q)
        (Source Table : Type)
        (design_matrices :
           Source -> bool -> string -> result (list Q * covariates * list string))
        (param_table : vec -> option matrix -> list string -> Table)
        (f : family) (src : Source) (kw : kwargs)
        (r : glm_result Table) (out : list line) :
  build value_and_grad grad hessian linalg_inv exp log gammaln_lib
        design_matrices param_table f src kw
  = (Ok r, out) ->
  exists y_vec x_mat names,
    design_matrices src (intercept kw) (drop kw) = Ok (y_vec, x_mat, names) /\
    match r with
    | RetBeta _ beta => output_is_beta (output kw) = true
    | RetTable tbl =>
        output_is_beta (output kw) = false /\ table kw = true /\
        exists beta m, tbl = param_table beta (Some m) (family_extra f ++ names)
    | RetPair _ beta sigma =>
        output_is_beta (output kw) = false /\ table kw = false /\
        exists m, sigma = Some m
    end.
Proof.
  destruct f; cbn [build family_extra];
    unfold logit, poisson, zero_inflated_poisson, negative_binomial,
           zero_inflated_negative_binomial, ordinary_least_squares;
    cbv zeta; intros H;
    exact (glm_result_shape value_and_grad grad hessian linalg_inv Source Table
             design_matrices param_table src _ _ _ kw r out H).
Qed.

Lemma builder_result_follows_options_witness :
  exists y_vec x_mat names,
    sample_design tt true "first"%string = Ok (y_vec, x_mat, names) /\
    output_is_beta None = false /\ true = true /\
    exists beta m, tt = sample_table beta (Some m) ([] ++ names).
Proof.
  assert (H : exists out,
             build sample_value_and_grad sample_grad sample_hessian sample_inv
                   sample_exp sample_log (fun x => x) sample_design sample_table
                   Logit tt
                   (mk_kwargs true "first" None true 2 1 (1 # 2)%Q (1 # 10000)%Q)
             = (Ok (RetTable tt), out))
    by (eexists; vm_compute; reflexivity).
  destruct H as [out H].
  exact (builder_result_follows_options
           sample_value_and_grad sample_grad sample_hessian sample_inv
           sample_exp sample_log (fun x => x) unit unit
           sample_design sample_table Logit tt
           (mk_kwargs true "first" None true 2 1 (1 # 2)%Q (1 # 10000)%Q)
           (RetTable tt) out H).
Defined.

(** ** The objective built by [glm] *)

Lemma last_k_app (extras beta : vec) :
  0 < length beta ->
  last_k (length beta) (extras ++ beta) = beta.
Proof.
  intros Hpos. unfold last_k. destruct (length beta) as [|k] eqn:E; [lia|].
  rewrite length_app, E.
  replace (length extras + S k - S k) with (length extras + 0) by lia.
  rewrite skipn_plus, skipn_app, skipn_all, Nat.sub_diag. reflexivity.
Qed.

(** X12. In the objective built by [glm], with the parameters laid out as
    the extra parameters followed by [K >= 1] design coefficients, the
    linear predictor of a record is the dot product of its covariate row
    with the design coefficients alone; the extra parameters reach the
    objective only through the loss, and the value is the negated mean of
    the per-record losses. *)
Theorem glm_model_uses_design_coefficients
        (link : Q -> Q) (loss1 : vec -> Q -> Q -> Q)
        (extras beta : vec) (y : list Q) (x : covariates) :
  0 < length beta ->
  glm_model (length beta) link loss1 (extras ++ beta) y x
  = (- mean (map2 (loss1 (extras ++ beta))
                  (map (fun row => link (vdot row beta)) (dense_rows x))
                  y))%Q.
Proof.
  intros Hpos. unfold glm_model. rewrite (last_k_app extras beta Hpos).
  now rewrite map_map.
Qed.

Lemma glm_model_uses_design_coefficients_witness :
  glm_model 2 (fun z => z) (fun par yh y0 => (yh - y0 + par_at par 0)%Q)
            ([7%Q] ++ [1%Q; 2%Q]) [1%Q] (Dense 2 [[3%Q; 4%Q]])
  = (- mean (map2 (fun yh y0 => (yh - y0 + par_at ([7%Q] ++ [1%Q; 2%Q]) 0)%Q)
                  (map (fun row => vdot row [1%Q; 2%Q])
                       (dense_rows (Dense 2 [[3%Q; 4%Q]])))
                  [1%Q]))%Q.
Proof.
  apply (glm_model_uses_design_coefficients
           (fun z => z) (fun par yh y0 => (yh - y0 + par_at par 0)%Q)
           [7%Q] [1%Q; 2%Q] [1%Q] (Dense 2 [[3%Q; 4%Q]])).
  cbn. lia.
Defined.

(** ** Sparse covariates and the Hessian scale *)

Lemma dense_rows_toarray (x : covariates) :
  dense_rows (toarray x) = dense_rows x /\ shape (toarray x) = shape x.
Proof.
  destruct x as [k rows|k rows]; unfold dense_rows; cbn.
  - split; reflexivity.
  - split; [reflexivity | now rewrite length_map].
Qed.

(** X16. Densifying a sparse covariate matrix batch by batch, as the
    iterator does, yields the same batches as iterating over the matrix
    densified upfront. *)
Theorem sparse_batches_equal_dense_batches
        (y : list Q) (x : covariates) (B : nat) (d : DataLoader.t) :
  DataLoader.init y x B = Ok d ->
  exists d',
    DataLoader.init y (toarray x) B = Ok d' /\
    DataLoader.iter d = DataLoader.iter d'.
Proof.
  intros Hd. destruct (init_inv _ _ _ _ Hd) as [HB _].
  pose proof (init_ok y (toarray x) B HB) as Hd'.
  eexists. split; [exact Hd'|].
  rewrite (iter_ordered _ _ _ _ Hd), (iter_ordered _ _ _ _ Hd').
  unfold ordered_batches.
  destruct (dense_rows_toarray x) as [-> ->]. reflexivity.
Qed.

Lemma sparse_batches_equal_dense_batches_witness :
  exists d',
    DataLoader.init sample_labels (toarray sample_sparse) 2 = Ok d' /\
    DataLoader.iter (DataLoader.mk sample_labels sample_sparse 2 5 2 true)
    = DataLoader.iter d'.
Proof.
  apply (sparse_batches_equal_dense_batches sample_labels sample_sparse 2).
  reflexivity.
Defined.






(** X18. Once the base log-likelihood of a record exceeds the clip bound,
    the zero-inflated Poisson loss no longer depends on the prediction: any
    two predictions above the bound give the same loss. *)
Theorem clipped_loss_ignores_prediction
        (exp log : Q -> Q) (par : vec) (yh yh' y : Q) :
  (clip_like < loss_poisson log yh y)%Q ->
  (clip_like < loss_poisson log yh' y)%Q ->
  zip_loss exp log par yh y = zip_loss exp log par yh' y /\
  zip_loss exp log par yh y
  = log (zi_likelihood exp (sigmoid exp (par_at par 0)) clip_like y).
Proof.
  intros H1 H2. unfold zip_loss, zi_likelihood.
  rewrite (clip_max_above _ _ H1), (clip_max_above _ _ H2). split; reflexivity.
Qed.

Lemma clipped_loss_ignores_prediction_witness :
  zip_loss sample_exp (fun z => 30 * z)%Q [0%Q] 2 1
  = zip_loss sample_exp (fun z => 30 * z)%Q [0%Q] 3 1.
Proof.
  apply (clipped_loss_ignores_prediction sample_exp (fun z => 30 * z)%Q [0%Q] 2 3 1).
  - unfold clip_like, loss_poisson. lra.
  - unfold clip_like, loss_poisson. lra.
Defined.

(** X19. In a run that trains for at least one epoch, when the exact
    Hessian raises and the gradient routine does not, the covariance that
    [maxlike] returns is the inverse, divided by [N], of the matrix built
    from the update vector [v] that the training loop left in [step]: row
    [i] from the perturbation of axis [i] by [v[i]], entry [j] divided by
    [v[j]]; the two diagnostic lines follow the epoch lines (with an empty
    parameter vector the handler raises [ValueError] instead, [np.vstack]
    having no row to stack). *)
Theorem degraded_covariance_uses_last_update
        (value_and_grad : Model -> vec -> list Q -> covariates -> result (Q * vec))
        (grad : Model -> vec -> list Q -> covariates -> result vec)
        (hessian : Model -> vec -> list Q -> covariates -> result matrix)
        (linalg_inv : matrix -> result matrix)
        (gv : vec -> list Q -> covariates -> vec)
        (y : list Q) (x : covariates) (model : Model) (params0 : vec)
        (B epochs : nat) (lr step : Q) (output : option string)
        (d : DataLoader.t) (p : vec) (st : step_val) (out : list line) (e : exn) :
  DataLoader.init y x B = Ok d ->
  train (value_and_grad model) d lr epochs params0 step = (Ok (p, st), out) ->
  0 < epochs ->
  length y <> 0 ->
  output_is_beta output = false ->
  (forall q yb xb, grad model q yb xb = Ok (gv q yb xb)) ->
  fst (exact_hessian (hessian model) d p B (length y) (length params0)) = Raise e ->
  exists v,
    st = StepVector v /\
    maxlike value_and_grad grad hessian linalg_inv y x model params0 B epochs
            lr step output
    = (if Nat.eqb (length params0) 0 then Raise ValueError
       else
         match linalg_inv (fd_hessian_rebound gv (DataLoader.iter d) p v B
                                              (length y) (length params0)) with
         | Ok Hi => Ok (p, Some (mdiv Hi (Qnat (length y))))
         | Raise e' => Raise e'
         end,
       out ++ [ErrorLine e; FallbackLine]).
Proof.
  intros Hd Ht Hep HN Hbeta Hg He.
  destruct (fallback_runs_with_update_vector
              value_and_grad grad hessian linalg_inv y x model params0 B epochs
              lr step output d p st out e Hd Ht Hep Hbeta He) as [v [Hv Hrun]].
  exists v. split; [exact Hv|]. rewrite Hrun.
  rewrite (fd_hessian_ext (grad model) (total_g gv) d p (StepVector v)
             B (length y) (length params0) Hg).
  pose proof (handler_rows_all_batches gv p
                (step_times_eye (StepVector v) (length params0))
                (length params0) (DataLoader.iter d)
                (fun _ => vzeros (length params0))) as Hrows.
  unfold fd_hessian.
  rewrite (repeat_as_map (vzeros (length params0)) (length params0) 0).
  rewrite Hrows, bind_ret, vstack_map_seq.
  destruct (Nat.eqb (length params0) 0); [reflexivity|]. rewrite bind_lift_ok.
  destruct (length y) as [|n] eqn:EN; [contradiction|].
  cbn [py_div_int]. rewrite bind_lift_ok. cbn [ret fst].
  replace (div_step
             (mtimes
                (map
                   (fun i =>
                      fold_left
                        (fun acc b =>
                           vadd acc
                             (vsub
                                (gv (vadd p (nth i (step_times_eye (StepVector v)
                                                      (length params0)) []))
                                    (fst b) (snd b))
                                (gv p (fst b) (snd b))))
                        (DataLoader.iter d) (vzeros (length params0)))
                   (seq 0 (length params0)))
                (Qnat B / Qnat (S n))) (StepVector v))
    with (fd_hessian_rebound gv (DataLoader.iter d) p v B (S n) (length params0));
    [reflexivity|].
  unfold fd_hessian_rebound, div_step, mtimes. rewrite !map_map.
  apply map_ext_in. intros i Hi. apply in_seq in Hi.
  now rewrite vector_diff_row by lia.
Qed.

Lemma degraded_covariance_uses_last_update_witness :
  exists v,
    StepVector [(1 # 2)%Q] = StepVector v /\
    maxlike sample_value_and_grad sample_grad failing_hessian sample_inv
            one_label one_row sample_model [0%Q] 1 1 (1 # 2)%Q (1 # 10000)%Q None
    = (match sample_inv
               (fd_hessian_rebound sample_gradient
                  (DataLoader.iter (DataLoader.mk one_label one_row 1 1 1 false))
                  [(1 # 2)%Q] v 1 (length one_label) (length [0%Q])) with
       | Ok Hi => Ok ([(1 # 2)%Q], Some (mdiv Hi (Qnat (length one_label))))
       | Raise e' => Raise e'
       end,
       [EpochLine 0 (0 # 3)]
         ++ [ErrorLine (OtherError "second derivative unsupported"); FallbackLine]).
Proof.
  apply (degraded_covariance_uses_last_update
           sample_value_and_grad sample_grad failing_hessian sample_inv
           sample_gradient one_label one_row sample_model [0%Q] 1 1
           (1 # 2)%Q (1 # 10000)%Q None
           (DataLoader.mk one_label one_row 1 1 1 false)
           [(1 # 2)%Q] (StepVector [(1 # 2)%Q]) [EpochLine 0 (0 # 3)]
           (OtherError "second derivative unsupported")).
  - reflexivity.
  - vm_compute; reflexivity.
  - lia.
  - discriminate.
  - reflexivity.
  - reflexivity.
  - reflexivity.
Defined.
